(** * starx: packet framing, handler registry and message dispatch

    A shallow embedding of [network/handler.go] (package [network] of the
    starx server): the handler registry ([Register]), the per-connection
    reader loop ([Handle]) and the packet/message processor
    ([processPacket], [processMessage], [localProcess], [remoteProcess]).

    Packages the handler imports but that are not part of the embedded
    file ([packet], [message], [route], [session], the agent, the
    serializer and the cluster directory) are either modelled from the
    specification, with a doc comment saying so, or taken as fields of an
    environment record. *)

From Stdlib Require Import ZArith Lia List Bool.
From Stdlib.Strings Require Import Ascii String Byte.
From Stdlib Require DecimalString.
From stdpp Require Import gmap strings list fin_maps.
Import ListNotations.

Local Open Scope string_scope.
Local Open Scope list_scope.

(** Go's [[]byte] and [error] (an error is represented by its message). *)
Abbreviation bytes := (list Byte.byte).
Abbreviation error := string.

(* ===================================================================== *)
(** * Package [packet] *)
(* ===================================================================== *)

Module packet.

(** [type Packet struct { Type PacketType; Length int; Data []byte }] *)
Record Packet := mkPacket {
  p_Type : Byte.byte;
  p_Length : Z;
  p_Data : bytes;
}.

Definition Handshake : Byte.byte := x01.
Definition HandshakeAck : Byte.byte := x02.
Definition Heartbeat : Byte.byte := x03.
Definition Data : Byte.byte := x04.
Definition Kick : Byte.byte := x05.

Definition HeadLength : Z := 4.

Definition ShortHeader : error := "ShortHeader".
Definition BadType : error := "BadType".

Definition validType (t : Byte.byte) : bool :=
  match t with
  | x01 | x02 | x03 | x04 | x05 => true
  | _ => false
  end.

(** Go's [len], an [int]. *)
Definition len {A} (l : list A) : Z := Z.of_nat (length l).

Definition byte_of_Z (n : Z) : Byte.byte :=
  match Byte.of_N (Z.to_N (n mod 256)) with
  | Some b => b
  | None => x00
  end.

Definition Z_of_byte (b : Byte.byte) : Z := Z.of_N (Byte.to_N b).

(** 24-bit big-endian length; a length of 2^24 or more wraps around. *)
Definition intToBytes (n : Z) : bytes :=
  [byte_of_Z (Z.shiftr n 16); byte_of_Z (Z.shiftr n 8); byte_of_Z n].

Definition byteToInt (b1 b2 b3 : Byte.byte) : Z :=
  Z.lor (Z.shiftl (Z_of_byte b1) 16)
    (Z.lor (Z.shiftl (Z_of_byte b2) 8) (Z_of_byte b3)).

(** Modelled from the spec: [packet.Pack] is not part of the embedded
    file.  Section 4.1: [Pack(p)] produces [Type || be24(len(Data)) ||
    Data]; section 3: types outside the enumerated set are a protocol
    error.  The Go signature returns [([]byte, error)]. *)
Definition Pack (p : Packet) : bytes * option error :=
  if validType (p_Type p)
  then (p_Type p :: intToBytes (len (p_Data p)) ++ p_Data p, None)
  else ([], Some BadType).

(** Modelled from the spec: [packet.Unpack] is not part of the embedded
    file.  Section 4.1: it requires [len(buf) >= 4], reads the header,
    verifies [len(buf) >= 4 + body] and returns the packet plus any
    trailing bytes; if the body is not yet fully present it returns no
    packet and leaves [buf] unchanged; it fails with [ShortHeader] on
    fewer than four bytes and with [BadType] on a type byte outside
    the enumerated set.  The remainder returned together with an error
    is not specified; the Go zero value is used, and nothing below
    depends on it. *)
Definition Unpack (buf : bytes) : option Packet * bytes * option error :=
  match buf with
  | t :: l1 :: l2 :: l3 :: body =>
      if validType t then
        let n := byteToInt l1 l2 l3 in
        if (len body <? n)%Z
        then (None, buf, None)
        else (Some (mkPacket t n (firstn (Z.to_nat n) body)),
              skipn (Z.to_nat n) body, None)
      else (None, [], Some BadType)
  | _ => (None, [], Some ShortHeader)
  end.

End packet.

(* ===================================================================== *)
(** * The reader loop of [handlerService.Handle] *)
(* ===================================================================== *)

Module reader.

Import packet.

(** The reader's local state: the accumulator [tmp], what has been sent
    on [packetChan] so far (the [packet] field of every
    [unhandledPacket], which is a pointer and may be nil), and how
    often [agent.close()] was called. *)
Record state := mkState {
  tmp : bytes;
  packetChan : list (option Packet);
  closes : nat;
}.

Definition start : state := mkState [] [] 0.

(** [for len(tmp) >= packet.HeadLength { p, tmp, err = packet.Unpack(tmp);
     if err != nil { agent.close(); break }; packetChan <- ... }].
    The Go loop has no bound; [fuel] bounds the number of iterations
    and [None] means that the loop is still running when it is used up. *)
Fixpoint unpackLoop (fuel : nat) (r : state) : option state :=
  if (len (tmp r) <? HeadLength)%Z then Some r
  else
    match fuel with
    | O => None
    | S fuel' =>
        match Unpack (tmp r) with
        | (_, rest, Some _) =>
            Some (mkState rest (packetChan r) (S (closes r)))
        | (p, rest, None) =>
            unpackLoop fuel' (mkState rest (packetChan r ++ [p]) (closes r))
        end
    end.

(** One successful [conn.Read]: [tmp = append(tmp, buf[:n]...)] followed
    by the inner loop. *)
Definition onRead (fuel : nat) (r : state) (seg : bytes) : option state :=
  unpackLoop fuel (mkState (tmp r ++ seg) (packetChan r) (closes r)).

(** The outer [for] loop over the successive successful reads. *)
Fixpoint reads (fuel : nat) (r : state) (segs : list bytes) : option state :=
  match segs with
  | [] => Some r
  | seg :: segs' =>
      match onRead fuel r seg with
      | Some r' => reads fuel r' segs'
      | None => None
      end
  end.

(** The packets that reached the processor: the non-nil entries. *)
Definition decoded (r : state) : list Packet := omap id (packetChan r).

End reader.

(* ===================================================================== *)
(** * Packages [session], [message] and [route] *)
(* ===================================================================== *)

Module session.

(** Modelled from the spec: the [session] package is not part of the
    embedded file.  Section 3: a session has an [Id], a [Uid] (0 until
    bound) and [LastID], the id of the most recent Request. *)
Record Session := mkSession {
  Id : Z;
  Uid : Z;
  LastID : Z;
}.

Definition setLastID (id : Z) (s : Session) : Session :=
  mkSession (Id s) (Uid s) id.

End session.

Module message.

(** Modelled from the spec: the [message] package is not part of the
    embedded file.  Section 3: a message has a [Type] among Request,
    Notify, Response and Push, an [ID], a [Route] and opaque [Data]. *)
Inductive MessageType := Request | Notify | Response | Push.

Record Message := mkMessage {
  m_Type : MessageType;
  m_ID : Z;
  m_Route : string;
  m_Data : bytes;
}.

End message.

Module route.

(** Modelled from the spec: the [route] package is not part of the
    embedded file.  Section 3: a route has the fields [ServerType],
    [Service] and [Method]. *)
Record Route := mkRoute {
  ServerType : string;
  Service : string;
  Method : string;
}.

Definition BadRoute : error := "BadRoute".

(** [strings.Split(s, ".")]: the fields between the dots. *)
Fixpoint splitDot (s : string) : list string :=
  match s with
  | EmptyString => [EmptyString]
  | String c s' =>
      if Ascii.eqb c "."%char then EmptyString :: splitDot s'
      else
        match splitDot s' with
        | f :: fs => String c f :: fs
        | [] => [String c EmptyString]
        end
  end.

(** Modelled from the spec: [route.Decode] is not part of the embedded
    file.  Section 4.3: it splits on the dot; two components give an
    empty [ServerType], three components fill all three fields, any
    other shape is [BadRoute]. *)
Definition Decode (s : string) : Route + error :=
  match splitDot s with
  | [svc; meth] => inl (mkRoute EmptyString svc meth)
  | [typ; svc; meth] => inl (mkRoute typ svc meth)
  | _ => inr BadRoute
  end.

End route.

(* ===================================================================== *)
(** * [encoding/json], as far as the handshake reply needs it *)
(* ===================================================================== *)

Module json.

(** A value as [json.Marshal] sees it: an integer, a float64 (kept as
    the text Go prints for it) or a map with string keys. *)
#[local] Unset Elimination Schemes.
Inductive value :=
| Int (z : Z)
| Float (text : string)
| Object (fields : list (string * value)).
#[local] Set Elimination Schemes.

Definition quote : string := String "034"%char EmptyString.

Definition itoa (z : Z) : string :=
  DecimalString.NilZero.string_of_int (Z.to_int z).

Fixpoint insertKey (kv : string * string) (l : list (string * string))
  : list (string * string) :=
  match l with
  | [] => [kv]
  | kv' :: l' =>
      if String.leb (fst kv) (fst kv') then kv :: l
      else kv' :: insertKey kv l'
  end.

(** Map keys are written in sorted order. *)
Definition sortKeys (l : list (string * string)) : list (string * string) :=
  fold_right insertKey [] l.

Fixpoint joinFields (l : list (string * string)) : string :=
  match l with
  | [] => EmptyString
  | [(k, v)] => quote ++ k ++ quote ++ ":" ++ v
  | (k, v) :: l' => quote ++ k ++ quote ++ ":" ++ v ++ "," ++ joinFields l'
  end.

Fixpoint Marshal (v : value) : string :=
  match v with
  | Int z => itoa z
  | Float text => text
  | Object fields =>
      "{" ++ joinFields
               (sortKeys (map (fun kv => (fst kv, Marshal (snd kv))) fields))
          ++ "}"
  end.

End json.

(* ===================================================================== *)
(** * Package [network]: the handler registry *)
(* ===================================================================== *)

Module network.

Import packet session message route.

(** ** What reflection shows of a component *)

(** The second argument a handler is called with: the raw payload, or a
    fresh instance of the declared type that the payload was
    deserialized into (determined by the type and the payload). *)
Inductive argument :=
| Raw (data : bytes)
| Decoded (typ : string) (data : bytes).

(** How a call through [reflect] ends: the handler panics, or it
    returns its results (nil or an error each). *)
Inductive outcome :=
| Panics (v : string)
| Returns (ret : list (option error)).

(** A handler receives the session pointer and may update the session.
    What user code does to the agent on its own through that pointer
    (the session's [Push], [Response] and [Kick]) belongs to the
    [session] package and to the component, not to the handler service:
    the trace holds the actions of the handler service. *)
Definition handlerFunc : Type := Session -> argument -> Session * outcome.

Inductive goType :=
| SessionPtr                 (* *session.Session *)
| ByteSlice                  (* []byte *)
| Pointer (elem : string)    (* *T for a named type T *)
| ErrorType                  (* error *)
| Other (name : string).

(** [reflect.Method]: its name, the argument types after the receiver,
    the result types and the function. *)
Record reflectMethod := mkMethod {
  Name : string;
  ins : list goType;
  outs : list goType;
  Func : handlerFunc;
}.

(** A [Component] value as [Register] inspects it: [typ.String()], the
    name of [reflect.Indirect(rcvr).Type()], the method set of [typ]
    and the method set of [reflect.PtrTo(typ)]. *)
Record Component := mkComponent {
  typString : string;
  indirectName : string;
  methods : list reflectMethod;
  ptrMethods : list reflectMethod;
}.

Record handlerMethod := mkHandlerMethod {
  method : reflectMethod;
  dataType : goType;
  raw : bool;
}.

Record service := mkService {
  name : string;
  rcvr : Component;
  handlerMethods : gmap string handlerMethod;
}.

(** [serviceMap map[string]*service]; a Go map may be nil.  The stored
    pointers are never nil: [Register] is the only place that stores. *)
Record handlerService := mkHandlerService {
  serviceMap : option (gmap string service);
}.

Definition newHandlerService : handlerService := mkHandlerService (Some ∅).

(** What a read of the map sees; reading a nil map finds nothing. *)
Definition services (hs : handlerService) : gmap string service :=
  match serviceMap hs with
  | Some m => m
  | None => ∅
  end.

(** Modelled from the spec: [isExported] is not part of the embedded
    file.  A Go name is exported when it starts with an upper-case
    letter; names are taken to start with an ASCII character here, and
    nothing below depends on which names count as exported. *)
Definition isExported (s : string) : bool :=
  match s with
  | String c _ =>
      let n := nat_of_ascii c in (65 <=? n)%nat && (n <=? 90)%nat
  | EmptyString => false
  end.

(** Modelled from the spec: [suitableHandlerMethods] is not part of the
    embedded file.  Section 3: a method is eligible if it is exported,
    takes exactly two arguments in addition to its receiver, the first
    a session handle, the second a byte slice ([raw = true]) or a
    pointer to an exported aggregate type ([raw = false]), and returns
    nothing or a single error value; other methods are ignored. *)
Definition isHandlerMethod (m : reflectMethod) : option handlerMethod :=
  if isExported (Name m) then
    match ins m, outs m with
    | [SessionPtr; ByteSlice], ([] | [ErrorType]) =>
        Some (mkHandlerMethod m ByteSlice true)
    | [SessionPtr; Pointer elem], ([] | [ErrorType]) =>
        if isExported elem then Some (mkHandlerMethod m (Pointer elem) false)
        else None
    | _, _ => None
    end
  else None.

(** Modelled from the spec: [suitableHandlerMethods] is not part of the
    embedded file.  It maps the name of every eligible method of the
    method set to its descriptor; [reportErr] only controls logging. *)
Definition suitableHandlerMethods (ms : list reflectMethod) (reportErr : bool)
  : gmap string handlerMethod :=
  foldl (fun acc m =>
           match isHandlerMethod m with
           | Some h => <[Name m := h]> acc
           | None => acc
           end) ∅ ms.

(** [func (hs *handlerService) Register(rcvr Component) error]: the
    handler service after the call and the error returned. *)
Definition Register (hs : handlerService) (c : Component)
  : handlerService * option error :=
  let hs :=
    match serviceMap hs with
    | None => mkHandlerService (Some ∅)
    | Some _ => hs
    end in
  let sname := indirectName c in
  if decide (sname = EmptyString) then
    (hs, Some ("handler.Register: no service name for type " +:+ typString c))
  else if negb (isExported sname) then
    (hs, Some ("handler.Register: type " +:+ sname +:+ " is not exported"))
  else
    match services hs !! sname with
    | Some _ => (hs, Some ("handler: service already defined: " +:+ sname))
    | None =>
        let hm := suitableHandlerMethods (methods c) true in
        if (size hm =? 0)%nat then
          let ptr := suitableHandlerMethods (ptrMethods c) false in
          if negb (size ptr =? 0)%nat then
            (hs, Some ("handler.Register: type " +:+ sname +:+
              " has no exported methods of suitable type (hint: pass a pointer to value of that type)"))
          else
            (hs, Some ("handler.Register: type " +:+ sname +:+
              " has no exported methods of suitable type"))
        else
          (mkHandlerService (Some (<[sname := mkService sname c hm]> (services hs))),
           None)
    end.

(** [Lookup(service, method)]: a pure read of the two maps. *)
Definition Lookup (hs : handlerService) (svc meth : string)
  : option handlerMethod :=
  match services hs !! svc with
  | Some s => handlerMethods s !! meth
  | None => None
  end.

(** ** The agent, the collaborators and the effects *)

(** Modelled from the spec: the agent is not part of the embedded file,
    which names [statusHandshake] and [statusWorking].  Section 3: the
    status is one of start, handshake, working and closed. *)
Inductive networkStatus :=
| statusStart | statusHandshake | statusWorking | statusClosed.

Inductive level := Debug | Info | Error.

Inductive logged :=
| Text (s : string)
| Msg (m : Message).           (* [msg.String()] *)

Inductive rpcKind := Sys | User.

(** What the processor does to the outside, in order. *)
Inductive event :=
| ELog (l : level) (what : logged)
| ESend (data : bytes)                                (* [a.Send(data)] *)
| EClose                                              (* [a.close()] *)
| EHeartbeat                                          (* [go a.heartbeat()] *)
| ECall (k : rpcKind) (r : Route) (s : Session) (payload : bytes)
| EInvoke (svc meth : string) (s : Session) (arg : argument).

(** The configuration and the collaborators that are not part of the
    embedded file: the node's server type, the text [json.Marshal]
    prints for [heartbeatInternal.Seconds()], [message.Decode],
    [serializer.Deserialize] (the error, for a payload and a type),
    [cluster.Call] (reply and error) and the socket write behind
    [a.Send] (the error, given the agent's status). *)
Record Env := mkEnv {
  appConfigType : string;
  heartbeatSeconds : string;
  messageDecode : bytes -> Message + error;
  Deserialize : bytes -> string -> option error;
  clusterCall : rpcKind -> Route -> Session -> bytes -> bytes * option error;
  socketWrite : networkStatus -> bytes -> option error;
}.

(** The agent's status, its session, and the events so far. *)
Record world := mkWorld {
  status : networkStatus;
  sess : Session;
  trace : list event;
}.

(** A computation changes the world and returns or panics. *)
Inductive result (A : Type) :=
| Done (a : A)
| Panic (v : string).
Arguments Done {A} a.
Arguments Panic {A} v.

Definition M (A : Type) : Type := world -> result A * world.

Definition ret {A} (a : A) : M A := fun w => (Done a, w).

Definition bind {A B} (c : M A) (k : A -> M B) : M B :=
  fun w =>
    match c w with
    | (Done a, w') => k a w'
    | (Panic v, w') => (Panic v, w')
    end.

Notation "x <- c ;; k" := (bind c (fun x => k))
  (at level 62, c at next level, right associativity).
Notation "c ;;; k" := (bind c (fun _ => k))
  (at level 62, right associativity).

Definition emit (e : event) : M unit :=
  fun w => (Done tt, mkWorld (status w) (sess w) (trace w ++ [e])).

Definition log (l : level) (s : string) : M unit := emit (ELog l (Text s)).

Definition panic {A} (v : string) : M A := fun w => (Panic v, w).

Definition getSession : M Session := fun w => (Done (sess w), w).

Definition putSession (s : Session) : M unit :=
  fun w => (Done tt, mkWorld (status w) s (trace w)).

Definition setStatus (st : networkStatus) : M unit :=
  fun w => (Done tt, mkWorld st (sess w) (trace w)).

(** [defer func() { if err := recover(); err != nil { log.Errorf(...) } }()] *)
Definition recover (c : M unit) : M unit :=
  fun w =>
    match c w with
    | (Done _, w') => (Done tt, w')
    | (Panic v, w') => log Error ("processMessage Error: " +:+ v) w'
    end.

(** Modelled from the spec: the agent is not part of the embedded file.
    Section 5: closing sets the agent's status to [closed]. *)
Definition close : M unit := emit EClose ;;; setStatus statusClosed.

Section Dispatch.

Variable env : Env.
Variable hs : handlerService.

(** [a.Send(data)] *)
Definition Send (data : bytes) : M (option error) :=
  fun w => (Done (socketWrite env (status w) data),
            mkWorld (status w) (sess w) (trace w ++ [ESend data])).

(** [m.method.Func.Call(...)] with the receiver, the session and the
    data; a panic of the handler unwinds through the caller. *)
Definition call (svc : string) (m : handlerMethod) (arg : argument)
  : M (list (option error)) :=
  s <- getSession ;;
  emit (EInvoke svc (Name (method m)) s arg) ;;;
  match Func (method m) s arg with
  | (s', Returns r) => putSession s' ;;; ret r
  | (s', Panics v) => putSession s' ;;; panic v
  end.

(** The [data] a handler is called with: the payload itself for a raw
    method, otherwise [reflect.New(m.dataType.Elem())] filled by the
    serializer.  [None]: [Elem] panics on a type that has no element
    type. *)
Definition argumentFor (m : handlerMethod) (msg : Message)
  : option (argument + error) :=
  if raw m then Some (inl (Raw (m_Data msg)))
  else
    match dataType m with
    | Pointer elem =>
        match Deserialize env (m_Data msg) elem with
        | Some e => Some (inr e)
        | None => Some (inl (Decoded elem (m_Data msg)))
        end
    | _ => None
    end.

(** [func (hs *handlerService) localProcess(session, route, msg)] *)
Definition localProcess (r : Route) (msg : Message) : M unit :=
  match services hs !! Service r with
  | None => log Info ("handler: service: " +:+ Service r +:+ " not found")
  | Some s =>
      match handlerMethods s !! Method r with
      | None =>
          log Info ("handler: " +:+ Service r +:+
                    " does not contain method: " +:+ Method r)
      | Some m =>
          match argumentFor m msg with
          | None => panic "reflect: Elem of invalid type"
          | Some (inr e) => log Error ("deserialize error: " +:+ e)
          | Some (inl arg) =>
              out <- call (name s) m arg ;;
              match out with
              | Some e :: _ => log Error e
              | _ => ret tt
              end
          end
      end
  end.

(** [func (hs *handlerService) remoteProcess(session, route, msg)] *)
Definition remoteProcess (r : Route) (msg : Message) : M unit :=
  s <- getSession ;;
  emit (ECall Sys r s (m_Data msg)) ;;;
  match clusterCall env Sys r s (m_Data msg) with
  | (_, Some e) => log Error e
  | (_, None) => ret tt
  end.

(** The part of [processMessage] after the switch on the type. *)
Definition dispatch (msg : Message) : M unit :=
  emit (ELog Debug (Msg msg)) ;;;
  match route.Decode (m_Route msg) with
  | inr e => log Error e
  | inl r =>
      let r :=
        if decide (ServerType r = EmptyString)
        then mkRoute (appConfigType env) (Service r) (Method r)
        else r in
      if decide (ServerType r = appConfigType env)
      then localProcess r msg
      else remoteProcess r msg
  end.

(** [func (hs *handlerService) processMessage(session, msg)] *)
Definition processMessage (msg : Message) : M unit :=
  recover
    match m_Type msg with
    | Request =>
        s <- getSession ;; putSession (setLastID (m_ID msg) s) ;;;
        dispatch msg
    | Notify =>
        s <- getSession ;; putSession (setLastID 0 s) ;;;
        dispatch msg
    | _ => log Error "invalid message type"
    end.

(** The body of the handshake reply. *)
Definition handshakeReply : json.value :=
  json.Object
    [("code", json.Int 200);
     ("sys", json.Object [("heartbeat", json.Float (heartbeatSeconds env))])].

(** [func (hs *handlerService) processPacket(a *agent, p *packet.Packet)].
    [json.Marshal] cannot fail on the reply, a map of numbers, so the
    branch that logs its error is never taken. *)
Definition processPacket (p : Packet) : M unit :=
  match p_Type p with
  | x01 =>
      setStatus statusHandshake ;;;
      let data := list_byte_of_string (json.Marshal handshakeReply) in
      let rp := mkPacket Handshake (len data) data in
      (match Pack rp with
       | (_, Some e) => log Error e ;;; close
       | (_, None) => ret tt
       end) ;;;
      err <- Send (fst (Pack rp)) ;;
      match err with
      | Some e => log Error e ;;; close
      | None => ret tt
      end
  | x02 => setStatus statusWorking
  | x04 =>
      match messageDecode env (p_Data p) with
      | inr e => log Error e
      | inl m => processMessage m ;;; emit EHeartbeat
      end
  | x03 => emit EHeartbeat
  | _ => log Info "invalid packet type" ;;; close
  end.

(** [processPacket] on the packets [ps], one after the other: what the
    processing goroutine of [Handle] does with the packets it takes from
    the channel.  The goroutine itself, with its end signal and with
    entries that carry no packet, is [behaviour.goroutine]. *)
Fixpoint processor (ps : list Packet) : M unit :=
  match ps with
  | [] => ret tt
  | p :: ps' => processPacket p ;;; processor ps'
  end.

End Dispatch.

End network.

(* ===================================================================== *)
(** * Reading a trace *)
(* ===================================================================== *)

Module observe.

Import session message route network.

Definition isSend (e : event) : bool :=
  match e with ESend _ => true | _ => false end.

Definition isClose (e : event) : bool :=
  match e with EClose => true | _ => false end.

Definition isCall (e : event) : bool :=
  match e with ECall _ _ _ _ => true | _ => false end.

Definition isInvoke (e : event) : bool :=
  match e with EInvoke _ _ _ _ => true | _ => false end.

(** The session a handler or the cluster was handed. *)
Definition seenSession (e : event) : option Session :=
  match e with
  | ECall _ _ s _ | EInvoke _ _ s _ => Some s
  | _ => None
  end.

(** The [LastID] that [processMessage] stores for a message. *)
Definition lastIDFor (msg : Message) : Z :=
  match m_Type msg with
  | Request => m_ID msg
  | _ => 0%Z
  end.

Definition routable (msg : Message) : bool :=
  match m_Type msg with
  | Request | Notify => true
  | _ => false
  end.

(** The world [dispatch] starts from: [LastID] stored. *)
Definition stored (msg : Message) (w : world) : world :=
  mkWorld (status w) (setLastID (lastIDFor msg) (sess w)) (trace w).

Definition withStatus (st : networkStatus) (w : world) : world :=
  mkWorld st (sess w) (trace w).

Definition isLocal (env : Env) (r : Route) : bool :=
  bool_decide (ServerType r = EmptyString \/ ServerType r = appConfigType env).

(** The route a local handler is looked up with. *)
Definition localRoute (env : Env) (r : Route) : Route :=
  mkRoute (appConfigType env) (Service r) (Method r).

(** No event of [t] writes to the socket or closes the agent. *)
Definition silent (t : list event) : bool :=
  forallb (fun e => negb (isSend e) && negb (isClose e)) t.

Definition noInvoke (t : list event) : bool :=
  forallb (fun e => negb (isInvoke e)) t.

Definition noCall (t : list event) : bool :=
  forallb (fun e => negb (isCall e)) t.

(** Every handler and every cluster call of [t] was handed session [s]. *)
Definition handedOnly (s : Session) (t : list event) : Prop :=
  forall e s', In e t -> seenSession e = Some s' -> s' = s.

(** A computation that neither reads nor writes the agent's status. *)
Definition statusBlind {A} (c : M A) : Prop :=
  forall st w, c (withStatus st w) = (fst (c w), withStatus st (snd (c w))).

(** [Register] allocates a nil map before anything else. *)
Definition allocated (hs : handlerService) : handlerService :=
  match serviceMap hs with
  | None => mkHandlerService (Some ∅)
  | Some _ => hs
  end.

(** The four ways [Register] rejects a component. *)
Definition rejected (hs : handlerService) (c : Component) : Prop :=
  indirectName c = EmptyString \/
  isExported (indirectName c) = false \/
  is_Some (services hs !! indirectName c) \/
  suitableHandlerMethods (methods c) true = ∅.

(** The service [Register] builds for a component. *)
Definition serviceOf (c : Component) : service :=
  mkService (indirectName c) c (suitableHandlerMethods (methods c) true).

(** The text of the handshake reply for a heartbeat interval. *)
Definition handshakePrefix : string :=
  "{" +:+ json.quote +:+ "code" +:+ json.quote +:+ ":200," +:+
  json.quote +:+ "sys" +:+ json.quote +:+ ":{" +:+
  json.quote +:+ "heartbeat" +:+ json.quote +:+ ":".

Definition handshakeText (seconds : string) : string :=
  handshakePrefix +:+ seconds +:+ "}}".

End observe.

(* ===================================================================== *)
(** * A small node used in the examples *)
(* ===================================================================== *)

Module example.

Import packet session message route network.

(** [func (e *Echo) Say(s *session.Session, req *SayReq) error] *)
Definition Say : reflectMethod :=
  mkMethod "Say" [SessionPtr; Pointer "SayReq"] [ErrorType]
    (fun s _ => (s, Returns [None])).

(** [func (e *Echo) Boom(s *session.Session, data []byte)], which panics. *)
Definition Boom : reflectMethod :=
  mkMethod "Boom" [SessionPtr; ByteSlice] []
    (fun s _ => (s, Panics "boom")).

(** [&Echo{}] *)
Definition Echo : Component :=
  mkComponent "*main.Echo" "Echo" [Say; Boom] [Say; Boom].

(** [Echo{}]: the methods have pointer receivers. *)
Definition EchoValue : Component :=
  mkComponent "main.Echo" "Echo" [] [Say; Boom].

Definition registry : handlerService := fst (Register newHandlerService Echo).

Definition sayRequest : Message := mkMessage Request 7 "Echo.Say" [x7b; x7d].
Definition boomRequest : Message := mkMessage Request 9 "Echo.Boom" [x00].
Definition unknownRequest : Message := mkMessage Request 11 "nope.none" [].
Definition joinRequest : Message := mkMessage Request 3 "chat.room.join" [x68; x69].
Definition pushMessage : Message := mkMessage Push 0 "Echo.Say" [].

(** A stand-in for [message.Decode]: the first payload byte selects the
    message. *)
Definition decode (data : bytes) : Message + error :=
  match data with
  | x01 :: _ => inl sayRequest
  | x02 :: _ => inl boomRequest
  | x03 :: _ => inl unknownRequest
  | x04 :: _ => inl joinRequest
  | _ => inr "Truncated"
  end.

(** A connector node: 30 seconds heartbeat, a cluster that answers
    every call with two bytes, a socket that accepts every write. *)
Definition node : Env :=
  mkEnv "connector" "30" decode (fun _ _ => None)
    (fun _ _ _ _ => ([x6f; x6b], None)) (fun _ _ => None).

(** The same node behind a socket that refuses every write. *)
Definition brokenNode : Env :=
  mkEnv "connector" "30" decode (fun _ _ => None)
    (fun _ _ _ _ => ([x6f; x6b], None)) (fun _ _ => Some "broken pipe").

(** A fresh agent: status [start], session 1. *)
Definition fresh : world := mkWorld statusStart (mkSession 1 0 0) [].

Definition dataPacket (b : Byte.byte) : Packet := mkPacket Data 1 [b].

End example.

(* ===================================================================== *)
(** * The rest of the handler service, and further observations *)
(* ===================================================================== *)

Module behaviour.

Import packet session message route network observe.

(** A [for ... range] loop over the entries [l]. *)
Fixpoint forEach {A} (l : list A) (body : A -> M unit) : M unit :=
  match l with
  | [] => ret tt
  | a :: l' => bind (body a) (fun _ => forEach l' body)
  end.

(** [func (hs *handlerService) dumpServiceMap()].  Go ranges over a map in
    no particular order; the order here is that of [map_to_list]. *)
Definition dumpServiceMap (hs : handlerService) : M unit :=
  forEach (map_to_list (services hs)) (fun kv =>
    forEach (map_to_list (handlerMethods (snd kv))) (fun km =>
      log Info ("registered service: " +:+ fst kv +:+ "." +:+ fst km))).

(** The (service, method) pairs in the order [dumpServiceMap] meets them. *)
Definition dumpPairs (hs : handlerService) : list (string * string) :=
  flat_map (fun kv => map (fun km => (fst kv, fst km))
                        (map_to_list (handlerMethods (snd kv))))
    (map_to_list (services hs)).

Definition dumpLine (sm : string * string) : event :=
  ELog Info (Text ("registered service: " +:+ fst sm +:+ "." +:+ snd sm)).

(** Registering the components [cs] one after the other, whatever the
    errors. *)
Fixpoint registerAll (cs : list Component) (hs : handlerService)
  : handlerService :=
  match cs with
  | [] => hs
  | c :: cs' => registerAll cs' (fst (Register hs c))
  end.

(** Every service is stored under its own name, the name is exported,
    and the service has at least one handler method. *)
Definition wellKeyed (hs : handlerService) : Prop :=
  forall k s, services hs !! k = Some s ->
    name s = k /\ isExported k = true /\ handlerMethods s <> ∅.

Definition isHeartbeat (e : event) : bool :=
  match e with EHeartbeat => true | _ => false end.

(** The events [processMessage] can cause: log lines, handler
    invocations and cluster calls. *)
Definition dispatchOnly (e : event) : bool :=
  match e with
  | ELog _ _ | ECall _ _ _ _ | EInvoke _ _ _ _ => true
  | _ => false
  end.

(** A computation that keeps the status and appends only events that
    satisfy [P]. *)
Definition confined {A} (P : event -> bool) (c : M A) : Prop :=
  forall w, exists res s' new,
    c w = (res, mkWorld (status w) s' (trace w ++ new)) /\
    forallb P new = true.

(** The packets after which [go a.heartbeat()] runs: a heartbeat, and a
    data packet whose message decodes. *)
Definition startsHeartbeat (env : Env) (p : Packet) : bool :=
  match p_Type p with
  | x03 => true
  | x04 =>
      match messageDecode env (p_Data p) with
      | inl _ => true
      | inr _ => false
      end
  | _ => false
  end.

(** The bytes of the handshake reply. *)
Definition handshakeFrame (env : Env) : bytes :=
  let data := list_byte_of_string (json.Marshal (handshakeReply env)) in
  fst (Pack (mkPacket Handshake (len data) data)).

(** The packets on which [processPacket] calls [a.close()]: a handshake
    whose reply cannot be sent, and every type it does not know. *)
Definition closesAgent (env : Env) (p : Packet) : bool :=
  match p_Type p with
  | x01 =>
      match socketWrite env statusHandshake (handshakeFrame env) with
      | Some _ => true
      | None => false
      end
  | x02 | x03 | x04 => false
  | _ => true
  end.

(** Data and heartbeat packets. *)
Definition isTraffic (p : Packet) : bool :=
  match p_Type p with
  | x03 | x04 => true
  | _ => false
  end.

(** A frame as the peer writes it: type, 24-bit length, body. *)
Definition frame (p : Packet) : bytes :=
  p_Type p :: intToBytes (len (p_Data p)) ++ p_Data p.

(** A packet the codec can carry: known type, [Length] equal to the
    length of [Data], which fits in 24 bits. *)
Definition framable (p : Packet) : Prop :=
  validType (p_Type p) = true /\ p_Length p = len (p_Data p) /\
  (len (p_Data p) < 16777216)%Z.

(** [hs.processPacket(p.agent, p.packet)] for one entry taken from the
    channel: the reader may have enqueued a nil packet, and [p.Type]
    then panics, outside the recovery barrier of [processMessage]. *)
Definition processEntry (env : Env) (hs : handlerService)
  (e : option Packet) : M unit :=
  match e with
  | Some p => processPacket env hs p
  | None => panic "runtime error: invalid memory address or nil pointer dereference"
  end.

(** The processing goroutine of [Handle]: [select] takes the entries of
    [packetChan] in order and processes them until the end signal is
    chosen; [taken] is the number of entries received before that, which
    the scheduler decides once the reader has sent the signal.  A drained
    channel yields nothing to process. *)
Fixpoint goroutine (env : Env) (hs : handlerService) (taken : nat)
  (chan : list (option Packet)) : M unit :=
  match taken, chan with
  | S k, e :: rest =>
      bind (processEntry env hs e) (fun _ => goroutine env hs k rest)
  | _, _ => ret tt
  end.

End behaviour.

(* ===================================================================== *)
(** * Framing: the reader loop across reads *)
(* ===================================================================== *)

Section Framing.

Import packet reader.

Lemma len_app {A} (l k : list A) : len (l ++ k) = (len l + len k)%Z.
Proof. unfold len. rewrite length_app. lia. Qed.

Lemma len_nonneg {A} (l : list A) : (0 <= len l)%Z.
Proof. unfold len. lia. Qed.

(** The three shapes of a result of [Unpack]. *)
Lemma Unpack_cases buf :
  (exists e, Unpack buf = (None, [], Some e)) \/
  ((HeadLength <= len buf)%Z /\ Unpack buf = (None, buf, None)) \/
  (exists p rest, (HeadLength <= len buf)%Z /\
                  Unpack buf = (Some p, rest, None) /\
                  forall more, Unpack (buf ++ more) = (Some p, rest ++ more, None)).
Proof.
  destruct buf as [|t [|l1 [|l2 [|l3 body]]]];
    try (left; eexists; reflexivity).
  cbn [Unpack]. destruct (validType t) eqn:Ht;
    [|left; eexists; reflexivity].
  right. set (n := byteToInt l1 l2 l3).
  assert (Hlen : (HeadLength <= len (t :: l1 :: l2 :: l3 :: body))%Z).
  { unfold HeadLength, len. cbn [length]. lia. }
  destruct (len body <? n)%Z eqn:Hn.
  - left. split; [exact Hlen | reflexivity].
  - right. do 2 eexists. split; [exact Hlen|]. split; [reflexivity|].
    intros more. cbn [app Unpack]. rewrite Ht. fold n.
    apply Z.ltb_ge in Hn.
    assert (Hn' : (len (body ++ more) <? n)%Z = false).
    { apply Z.ltb_ge. rewrite len_app. pose proof (len_nonneg more). lia. }
    rewrite Hn'. unfold len in Hn.
    assert (Hle : (Z.to_nat n <= length body)%nat) by lia.
    rewrite firstn_app, skipn_app.
    replace (Z.to_nat n - length body)%nat with 0%nat by lia.
    cbn [firstn skipn]. rewrite app_nil_r. reflexivity.
Qed.

(** Once the accumulator holds a header whose body is incomplete,
    every further iteration finds it unchanged: the loop never ends. *)
Lemma unpackLoop_stuck buf :
  (HeadLength <= len buf)%Z -> Unpack buf = (None, buf, None) ->
  forall fuel q c, unpackLoop fuel (mkState buf q c) = None.
Proof.
  intros Hlen Hun fuel. induction fuel as [|fuel IH]; intros q c; cbn [unpackLoop tmp].
  - apply Z.ltb_ge in Hlen. rewrite Hlen. reflexivity.
  - apply Z.ltb_ge in Hlen. rewrite Hlen, Hun. apply IH.
Qed.

Lemma unpackLoop_more_fuel f k r r' :
  unpackLoop f r = Some r' -> unpackLoop (k + f) r = Some r'.
Proof.
  revert r. induction f as [|f IH]; intros r H.
  - cbn [unpackLoop] in H. destruct (len (tmp r) <? HeadLength)%Z eqn:E; [|discriminate].
    destruct (k + 0)%nat; cbn [unpackLoop]; rewrite E; exact H.
  - replace (k + S f)%nat with (S (k + f)) by lia.
    cbn [unpackLoop] in *. destruct (len (tmp r) <? HeadLength)%Z; [exact H|].
    destruct (Unpack (tmp r)) as [[p rest] [e|]]; [exact H|].
    apply IH. exact H.
Qed.

(** Appending bytes to the accumulator after an error-free run of the
    loop gives what the loop gives when the bytes are there from the
    start. *)
Lemma unpackLoop_app f1 : forall r r1 more f2 r2,
  unpackLoop f1 r = Some r1 -> closes r1 = closes r ->
  unpackLoop f2 (mkState (tmp r1 ++ more) (packetChan r1) (closes r1)) = Some r2 ->
  unpackLoop (f1 + f2) (mkState (tmp r ++ more) (packetChan r) (closes r)) = Some r2.
Proof.
  induction f1 as [|f1 IH]; intros r r1 more f2 r2 H1 Hc H2.
  - cbn [unpackLoop] in H1.
    destruct (len (tmp r) <? HeadLength)%Z; [|discriminate].
    injection H1 as <-. exact H2.
  - cbn [unpackLoop] in H1.
    destruct (len (tmp r) <? HeadLength)%Z eqn:E.
    { injection H1 as <-. apply unpackLoop_more_fuel. exact H2. }
    apply Z.ltb_ge in E.
    destruct (Unpack_cases (tmp r)) as [[e He]|[[_ Hs]|(p & rest & _ & Hp & Happ)]].
    + rewrite He in H1. injection H1 as <-. cbn [closes] in Hc. lia.
    + rewrite Hs in H1. destruct r as [t q c]. cbn [tmp packetChan closes] in *.
      rewrite (unpackLoop_stuck t E Hs) in H1. discriminate.
    + rewrite Hp in H1. cbn [Nat.add unpackLoop tmp packetChan closes].
      assert (E' : (len (tmp r ++ more) <? HeadLength)%Z = false).
      { apply Z.ltb_ge. rewrite len_app. pose proof (len_nonneg more). lia. }
      rewrite E', Happ.
      apply (IH (mkState rest (packetChan r ++ [Some p]) (closes r)) r1 more f2 r2 H1 Hc H2).
Qed.

(** Framing is split-invariant for every split after which the first
    read leaves the loop without an error. *)
Lemma reads_split f1 f2 r r1 r2 s1 s2 :
  onRead f1 r s1 = Some r1 -> closes r1 = closes r ->
  onRead f2 r1 s2 = Some r2 ->
  onRead (f1 + f2) r (s1 ++ s2) = Some r2.
Proof.
  unfold onRead. intros H1 Hc H2. rewrite app_assoc.
  apply (unpackLoop_app f1 (mkState (tmp r ++ s1) (packetChan r) (closes r))
           r1 s2 f2 r2 H1 Hc H2).
Qed.

(** C5 (evaluated at the failing input): a [Data] packet with a one-byte
    body arrives in two reads, the four header bytes and then the body
    byte.  Read at once it is decoded; split, the inner loop finds a
    full header, gets no packet and the unchanged buffer back from
    [Unpack], and never leaves: whatever the number of iterations
    allowed, the second read is not reached. *)
Theorem reads_split_header_spins :
  (forall fuel, reads fuel start [[x04; x00; x00; x01]; [xaa]] = None) /\
  option_map decoded (reads 1 start [[x04; x00; x00; x01; xaa]])
    = Some [mkPacket Data 1 [xaa]].
Proof.
  split; [|reflexivity].
  intros fuel. unfold reads, onRead, start. cbn [tmp packetChan closes app].
  rewrite unpackLoop_stuck; [reflexivity| |reflexivity].
  unfold HeadLength, len. cbn [length]. lia.
Qed.

End Framing.

(* ===================================================================== *)
(** * Registration *)
(* ===================================================================== *)

Section Registration.

Import network observe.

Lemma services_allocated hs : services (allocated hs) = services hs.
Proof. destruct hs as [[m|]]; reflexivity. Qed.

Lemma allocated_id hs : serviceMap hs <> None -> allocated hs = hs.
Proof. destruct hs as [[m|]]; cbn; congruence. Qed.

Lemma size_zero_empty (m : gmap string handlerMethod) :
  (size m =? 0)%nat = true <-> m = ∅.
Proof. rewrite Nat.eqb_eq. apply map_size_empty_iff. Qed.

(** Either the component is rejected, the map is only allocated and an
    error comes back, or it is accepted and installed. *)
Lemma Register_cases hs c :
  (rejected hs c /\ fst (Register hs c) = allocated hs /\
   exists e, snd (Register hs c) = Some e) \/
  (~ rejected hs c /\
   Register hs c =
     (mkHandlerService (Some (<[indirectName c := serviceOf c]> (services hs))),
      None)).
Proof.
  unfold Register, rejected, serviceOf. fold (allocated hs).
  rewrite services_allocated.
  destruct (decide (indirectName c = EmptyString)) as [E|E].
  { left. split; [tauto|]. split; [reflexivity|]. eexists; reflexivity. }
  destruct (isExported (indirectName c)) eqn:X; cbn [negb].
  2:{ left. split; [tauto|]. split; [reflexivity|]. eexists; reflexivity. }
  destruct (services hs !! indirectName c) as [s|] eqn:P.
  { left. split; [right; right; left; eexists; reflexivity|].
    split; [reflexivity|]. eexists; reflexivity. }
  destruct (size (suitableHandlerMethods (methods c) true) =? 0)%nat eqn:Z.
  - apply size_zero_empty in Z. left. split; [tauto|].
    destruct (negb _); (split; [reflexivity|]); eexists; reflexivity.
  - right. split; [|reflexivity].
    intros [H|[H|[H|H]]].
    + contradiction.
    + discriminate.
    + destruct H; discriminate.
    + apply size_zero_empty in H. congruence.
Qed.

(** C9: [Register] returns an error exactly when the name of the
    receiver's type is empty, or is not exported, or a service of that
    name is already in the map, or no method of the receiver is a
    suitable handler method; otherwise it returns nil and the service,
    with its suitable methods, is in the map under that name. *)
Theorem Register_error_iff hs c :
  ((exists e, snd (Register hs c) = Some e) <->
     indirectName c = EmptyString \/
     isExported (indirectName c) = false \/
     is_Some (services hs !! indirectName c) \/
     suitableHandlerMethods (methods c) true = ∅) /\
  ((exists e, snd (Register hs c) = Some e) \/
   Register hs c =
     (mkHandlerService (Some (<[indirectName c := serviceOf c]> (services hs))),
      None) /\
   services (fst (Register hs c)) !! indirectName c = Some (serviceOf c)).
Proof.
  fold (rejected hs c).
  destruct (Register_cases hs c) as [(R & _ & e & He)|(R & E)].
  - split; [split; [intros _; exact R | intros _; eauto]|].
    left. eauto.
  - rewrite E. cbn [fst snd]. split.
    + split; [intros [e He]; discriminate | intros H; contradiction].
    + right. split; [reflexivity|].
      unfold services. cbn [serviceMap]. apply lookup_insert_eq.
Qed.

(** C10: when [Register] returns an error, the services in the map are
    those from before the call: nothing is installed, removed or
    replaced, every [Lookup] answers as before, and a handler service
    whose map was allocated is unchanged altogether. *)
Theorem Register_error_keeps_map hs c e :
  snd (Register hs c) = Some e ->
  services (fst (Register hs c)) = services hs /\
  (forall svc meth, Lookup (fst (Register hs c)) svc meth = Lookup hs svc meth) /\
  (serviceMap hs <> None -> fst (Register hs c) = hs).
Proof.
  intros He.
  destruct (Register_cases hs c) as [(_ & Hf & _)|(_ & E)].
  - rewrite Hf. split; [apply services_allocated|].
    split; [|apply allocated_id].
    intros svc meth. unfold Lookup. rewrite services_allocated. reflexivity.
  - rewrite E in He. discriminate.
Qed.

Lemma Register_error_keeps_map_witness :
  services (fst (Register example.registry example.Echo)) = services example.registry /\
  (forall svc meth,
      Lookup (fst (Register example.registry example.Echo)) svc meth
      = Lookup example.registry svc meth) /\
  (serviceMap example.registry <> None ->
   fst (Register example.registry example.Echo) = example.registry).
Proof.
  apply (Register_error_keeps_map example.registry example.Echo
           "handler: service already defined: Echo").
  vm_compute. reflexivity.
Defined.

End Registration.

(* ===================================================================== *)
(** * Dispatch *)
(* ===================================================================== *)

Section DispatchFacts.

Import packet session message route network observe.

Variable env : Env.
Variable hs : handlerService.

Ltac run :=
  unfold processMessage, recover, dispatch, localProcess, remoteProcess,
    call, close, Send, log, emit, getSession, putSession, setStatus, panic,
    bind, ret in *;
  cbn [fst snd status sess trace] in *.

Lemma processMessage_unroutable msg w :
  routable msg = false ->
  processMessage env hs msg w =
    (Done tt, mkWorld (status w) (sess w)
                (trace w ++ [ELog Error (Text "invalid message type")])).
Proof. unfold routable. run. destruct (m_Type msg); (discriminate || reflexivity). Qed.

Lemma processMessage_routable msg w :
  routable msg = true ->
  processMessage env hs msg w = recover (dispatch env hs msg) (stored msg w).
Proof.
  unfold routable, stored, lastIDFor. run.
  destruct (m_Type msg); (discriminate || reflexivity).
Qed.

(** What [localProcess] does, by the result of the two map reads. *)
Lemma localProcess_missing r msg w :
  Lookup hs (Service r) (Method r) = None ->
  exists text,
    localProcess env hs r msg w =
      (Done tt, mkWorld (status w) (sess w) (trace w ++ [ELog Info (Text text)])).
Proof.
  unfold Lookup. run.
  destruct (services hs !! Service r) as [s|]; [|eexists; reflexivity].
  intros ->. eexists; reflexivity.
Qed.

Lemma localProcess_found r msg w s m arg :
  services hs !! Service r = Some s ->
  handlerMethods s !! Method r = Some m ->
  argumentFor env m msg = Some (inl arg) ->
  localProcess env hs r msg w =
    let invoked :=
      trace w ++ [EInvoke (name s) (Name (method m)) (sess w) arg] in
    match Func (method m) (sess w) arg with
    | (s', Panics v) => (Panic v, mkWorld (status w) s' invoked)
    | (s', Returns (Some e :: _)) =>
        (Done tt, mkWorld (status w) s' (invoked ++ [ELog Error (Text e)]))
    | (s', Returns _) => (Done tt, mkWorld (status w) s' invoked)
    end.
Proof.
  intros Hs Hm Ha. run. rewrite Hs, Hm, Ha. cbn [fst snd status sess trace].
  destruct (Func (method m) (sess w) arg) as [s' [v|[|[e|] rest]]]; reflexivity.
Qed.

Lemma remoteProcess_run r msg w :
  remoteProcess env r msg w =
    (Done tt,
     mkWorld (status w) (sess w)
       (trace w ++ ECall Sys r (sess w) (m_Data msg) ::
          match snd (clusterCall env Sys r (sess w) (m_Data msg)) with
          | Some e => [ELog Error (Text e)]
          | None => []
          end)).
Proof.
  run. destruct (clusterCall env Sys r (sess w) (m_Data msg)) as [reply [e|]];
    cbn [snd status sess trace]; rewrite <- ?app_assoc; reflexivity.
Qed.

Lemma dispatch_route msg r w :
  route.Decode (m_Route msg) = inl r ->
  dispatch env hs msg w =
    (if isLocal env r
     then localProcess env hs (localRoute env r) msg
     else remoteProcess env r msg)
      (mkWorld (status w) (sess w) (trace w ++ [ELog Debug (Msg msg)])).
Proof.
  intros Hr. unfold dispatch, isLocal, localRoute, bind, emit. rewrite Hr.
  destruct r as [t svc meth]. cbn [ServerType Service Method].
  destruct (decide (t = EmptyString)) as [->|Ht]; cbn [ServerType].
  - rewrite decide_True by reflexivity.
    rewrite bool_decide_eq_true_2 by (left; reflexivity). reflexivity.
  - destruct (decide (t = appConfigType env)) as [->|Hne].
    + rewrite bool_decide_eq_true_2 by (right; reflexivity). reflexivity.
    + rewrite bool_decide_eq_false_2 by tauto. reflexivity.
Qed.

Lemma handedOnly_nil s : handedOnly s [].
Proof. intros e s' []. Qed.

Lemma handedOnly_cons s e t :
  (forall s', seenSession e = Some s' -> s' = s) -> handedOnly s t ->
  handedOnly s (e :: t).
Proof. intros He Ht e' s' [<-|Hin]; [apply He | apply (Ht e' s' Hin)]. Qed.

Ltac handed :=
  repeat (apply handedOnly_cons; [cbn; congruence|]); apply handedOnly_nil.

(** [localProcess] only appends to the trace, leaves the status alone,
    neither sends nor closes nor calls the cluster, and hands the
    session it finds to at most one handler. *)
Lemma localProcess_spec r msg w :
  exists res s' new,
    localProcess env hs r msg w = (res, mkWorld (status w) s' (trace w ++ new)) /\
    silent new = true /\ noCall new = true /\
    handedOnly (sess w) new /\
    (noInvoke new = true -> s' = sess w).
Proof.
  destruct (services hs !! Service r) as [s|] eqn:Hs.
  2:{ destruct (localProcess_missing r msg w) as [text ->].
      { unfold Lookup. rewrite Hs. reflexivity. }
      do 3 eexists. split; [reflexivity|]. repeat split; try reflexivity. handed. }
  destruct (handlerMethods s !! Method r) as [m|] eqn:Hm.
  2:{ destruct (localProcess_missing r msg w) as [text ->].
      { unfold Lookup. rewrite Hs. exact Hm. }
      do 3 eexists. split; [reflexivity|]. repeat split; try reflexivity. handed. }
  destruct (argumentFor env m msg) as [[arg|e]|] eqn:Ha.
  - rewrite (localProcess_found r msg w s m arg Hs Hm Ha). cbv zeta.
    destruct (Func (method m) (sess w) arg) as [s' [v|[|[e|] rest]]];
      try rewrite <- app_assoc;
      (do 3 eexists; split; [reflexivity|];
       repeat split; try reflexivity; [handed | discriminate]).
  - run. rewrite Hs, Hm, Ha.
    do 3 eexists. split; [reflexivity|]. repeat split; try reflexivity. handed.
  - run. rewrite Hs, Hm, Ha.
    exists (Panic "reflect: Elem of invalid type"), (sess w), [].
    rewrite app_nil_r. destruct w as [st se tr].
    split; [reflexivity|]. repeat split; try reflexivity. handed.
Qed.

Lemma remoteProcess_spec r msg w :
  exists new,
    remoteProcess env r msg w = (Done tt, mkWorld (status w) (sess w) (trace w ++ new)) /\
    silent new = true /\ noInvoke new = true /\
    filter (fun e => isCall e) new = [ECall Sys r (sess w) (m_Data msg)] /\
    handedOnly (sess w) new.
Proof.
  rewrite remoteProcess_run. eexists. split; [reflexivity|].
  destruct (snd (clusterCall env Sys r (sess w) (m_Data msg)));
    repeat split; try reflexivity; handed.
Qed.

(** The recovery barrier: whatever the body does, [recover] returns. *)
Lemma recover_run c w res w' :
  c w = (res, w') ->
  recover c w =
    (Done tt,
     match res with
     | Done _ => w'
     | Panic v =>
         mkWorld (status w') (sess w')
           (trace w' ++ [ELog Error (Text ("processMessage Error: " +:+ v))])
     end).
Proof. intros H. unfold recover. rewrite H. destruct res; reflexivity. Qed.

Lemma silent_app t u : silent (t ++ u) = silent t && silent u.
Proof. apply forallb_app. Qed.

Lemma noInvoke_app t u : noInvoke (t ++ u) = noInvoke t && noInvoke u.
Proof. apply forallb_app. Qed.

Lemma handedOnly_app s t u : handedOnly s t -> handedOnly s u -> handedOnly s (t ++ u).
Proof.
  intros Ht Hu e s' Hin. apply in_app_or in Hin. destruct Hin; eauto.
Qed.

(** [processMessage] as a whole: it always returns, leaves the status
    alone, only appends to the trace, neither sends nor closes, and
    every handler or cluster call is handed the session with [LastID]
    stored. *)
Lemma processMessage_spec msg w :
  routable msg = true ->
  exists s' new,
    processMessage env hs msg w = (Done tt, mkWorld (status w) s' (trace w ++ new)) /\
    silent new = true /\
    handedOnly (setLastID (lastIDFor msg) (sess w)) new /\
    (noInvoke new = true -> s' = setLastID (lastIDFor msg) (sess w)).
Proof.
  intros Hr. rewrite (processMessage_routable msg w Hr).
  set (s1 := setLastID (lastIDFor msg) (sess w)).
  set (w1 := mkWorld (status w) s1 (trace w ++ [ELog Debug (Msg msg)])).
  destruct (route.Decode (m_Route msg)) as [r|e] eqn:Hd.
  - pose proof (dispatch_route msg r (stored msg w) Hd) as Hdis.
    change (mkWorld (status (stored msg w)) (sess (stored msg w))
              (trace (stored msg w) ++ [ELog Debug (Msg msg)])) with w1 in Hdis.
    destruct (isLocal env r).
    + destruct (localProcess_spec (localRoute env r) msg w1)
        as (res & s' & new & Hl & Hsil & _ & Hh & Hn).
      rewrite Hl in Hdis. rewrite (recover_run _ _ _ _ Hdis).
      cbn [w1 status sess trace] in *.
      destruct res as [[]|v]; rewrite <- ?app_assoc;
        (do 2 eexists; split; [reflexivity|]).
      * cbn [app]. repeat split.
        -- exact Hsil.
        -- apply handedOnly_cons; [cbn; congruence | exact Hh].
        -- intros H. apply Hn. exact H.
      * cbn [app]. repeat split.
        -- change (silent (new ++ [ELog Error (Text ("processMessage Error: " +:+ v))]) = true).
           rewrite silent_app, Hsil. reflexivity.
        -- apply handedOnly_cons; [cbn; congruence|].
           apply handedOnly_app; [exact Hh | handed].
        -- intros H. apply Hn.
           change (noInvoke (new ++ [ELog Error (Text ("processMessage Error: " +:+ v))]) = true) in H.
           rewrite noInvoke_app in H. apply andb_true_iff in H. tauto.
    + destruct (remoteProcess_spec r msg w1) as (new & Hrm & Hsil & Hni & _ & Hh).
      rewrite Hrm in Hdis. rewrite (recover_run _ _ _ _ Hdis).
      cbn [w1 status sess trace] in *. rewrite <- app_assoc.
      do 2 eexists; split; [reflexivity|]. cbn [app]. repeat split.
      * exact Hsil.
      * apply handedOnly_cons; [cbn; congruence | exact Hh].
  - assert (Hdis : dispatch env hs msg (stored msg w) =
              (Done tt, mkWorld (status w) s1 (trace w1 ++ [ELog Error (Text e)]))).
    { unfold dispatch, bind, emit, log. rewrite Hd. reflexivity. }
    rewrite (recover_run _ _ _ _ Hdis). cbn [w1 trace]. rewrite <- app_assoc.
    do 2 eexists; split; [reflexivity|]. repeat split; try reflexivity. handed.
Qed.

(** Where a routable message with a decoded route goes. *)
Lemma processMessage_local msg r w :
  routable msg = true ->
  route.Decode (m_Route msg) = inl r ->
  ServerType r = EmptyString \/ ServerType r = appConfigType env ->
  processMessage env hs msg w =
    recover (localProcess env hs (localRoute env r) msg)
      (mkWorld (status w) (setLastID (lastIDFor msg) (sess w))
         (trace w ++ [ELog Debug (Msg msg)])).
Proof.
  intros Hr Hd Hloc. rewrite (processMessage_routable msg w Hr).
  unfold recover. rewrite (dispatch_route msg r _ Hd).
  unfold isLocal. rewrite bool_decide_eq_true_2 by exact Hloc. reflexivity.
Qed.

Lemma processMessage_remote msg r w :
  routable msg = true ->
  route.Decode (m_Route msg) = inl r ->
  ServerType r <> EmptyString -> ServerType r <> appConfigType env ->
  processMessage env hs msg w =
    recover (remoteProcess env r msg)
      (mkWorld (status w) (setLastID (lastIDFor msg) (sess w))
         (trace w ++ [ELog Debug (Msg msg)])).
Proof.
  intros Hr Hd Hn1 Hn2. rewrite (processMessage_routable msg w Hr).
  unfold recover. rewrite (dispatch_route msg r _ Hd).
  unfold isLocal. rewrite bool_decide_eq_false_2 by tauto. reflexivity.
Qed.

(** ** The status is not consulted *)

Lemma blind_ret {A} (a : A) : statusBlind (ret a).
Proof. intros st w. reflexivity. Qed.

Lemma blind_panic {A} v : statusBlind (@panic A v).
Proof. intros st w. reflexivity. Qed.

Lemma blind_emit e : statusBlind (emit e).
Proof. intros st w. reflexivity. Qed.

Lemma blind_getSession : statusBlind getSession.
Proof. intros st w. reflexivity. Qed.

Lemma blind_putSession s : statusBlind (putSession s).
Proof. intros st w. reflexivity. Qed.

Lemma blind_bind {A B} (c : M A) (k : A -> M B) :
  statusBlind c -> (forall a, statusBlind (k a)) -> statusBlind (bind c k).
Proof.
  intros Hc Hk st w. unfold bind. rewrite Hc.
  destruct (c w) as [[a|v] w']; cbn [fst snd]; [apply Hk | reflexivity].
Qed.

Lemma blind_recover c : statusBlind c -> statusBlind (recover c).
Proof.
  intros Hc st w. unfold recover. rewrite Hc.
  destruct (c w) as [[a|v] w']; cbn [fst snd]; reflexivity.
Qed.

Ltac blind :=
  repeat first
    [ apply blind_ret | apply blind_panic | apply blind_emit
    | apply blind_getSession | apply blind_putSession
    | apply blind_recover
    | apply blind_bind; [|intros ?]
    | match goal with
      | |- statusBlind (match ?x with _ => _ end) => destruct x
      | |- statusBlind (if ?x then _ else _) => destruct x
      end ].

Lemma blind_localProcess r msg : statusBlind (localProcess env hs r msg).
Proof. unfold localProcess, call, log. blind. Qed.

Lemma blind_remoteProcess r msg : statusBlind (remoteProcess env r msg).
Proof. unfold remoteProcess, log. blind. Qed.

Lemma blind_processMessage msg : statusBlind (processMessage env hs msg).
Proof.
  unfold processMessage, dispatch, log.
  blind; first [apply blind_localProcess | apply blind_remoteProcess].
Qed.

(** ** Packets *)

Lemma processMessage_returns msg w : fst (processMessage env hs msg w) = Done tt.
Proof.
  destruct (routable msg) eqn:Hr.
  - destruct (processMessage_spec msg w Hr) as (s' & new & -> & _). reflexivity.
  - rewrite (processMessage_unroutable msg w Hr). reflexivity.
Qed.

Lemma processPacket_data p w :
  p_Type p = Data ->
  processPacket env hs p w =
    match messageDecode env (p_Data p) with
    | inr e => log Error e w
    | inl m => bind (processMessage env hs m) (fun _ => emit EHeartbeat) w
    end.
Proof.
  intros Hp. unfold processPacket. rewrite Hp. cbv iota beta delta [Data].
  destruct (messageDecode env (p_Data p)); reflexivity.
Qed.

(** No packet makes the processor panic: the goroutine goes on to the
    next packet. *)
Lemma processPacket_returns p w : fst (processPacket env hs p w) = Done tt.
Proof.
  unfold processPacket.
  destruct (p_Type p); try reflexivity.
  - unfold bind, setStatus, Send, log, emit, close, ret, Pack.
    cbn [fst snd status sess trace p_Type Handshake validType].
    destruct (socketWrite env _ _); reflexivity.
  - destruct (messageDecode env (p_Data p)) as [m|e]; [|reflexivity].
    unfold bind. pose proof (processMessage_returns m w) as H.
    destruct (processMessage env hs m w) as [res w']. cbn [fst] in H.
    rewrite H. reflexivity.
Qed.

Lemma processor_step p ps w :
  processor env hs (p :: ps) w = processor env hs ps (snd (processPacket env hs p w)).
Proof.
  cbn [processor]. unfold bind at 1.
  pose proof (processPacket_returns p w) as H.
  destruct (processPacket env hs p w) as [res w']. cbn [fst snd] in *.
  rewrite H. reflexivity.
Qed.

End DispatchFacts.

(* ===================================================================== *)
(** * The processor: main results *)
(* ===================================================================== *)

Import packet session message route network observe.

(** C7: [processMessage] stores [msg.ID] in [session.LastID] for a Request
    and 0 for a Notify before it routes the message, and touches no other
    field of the session: every handler and every cluster call is handed
    a session whose [LastID] is that value, and it is the [LastID]
    afterwards unless a handler ran; a message of another type is
    rejected: an error is logged, nothing is routed or invoked, and the
    session is left as it was. *)
Theorem processMessage_LastID env hs msg w :
  match m_Type msg with
  | Request =>
      processMessage env hs msg w =
        recover (dispatch env hs msg)
          (mkWorld (status w) (setLastID (m_ID msg) (sess w)) (trace w)) /\
      exists s' new,
        processMessage env hs msg w =
          (Done tt, mkWorld (status w) s' (trace w ++ new)) /\
        handedOnly (setLastID (m_ID msg) (sess w)) new /\
        (noInvoke new = true -> s' = setLastID (m_ID msg) (sess w)) /\
        (forall e s, List.In e new -> seenSession e = Some s ->
           LastID s = m_ID msg /\ Id s = Id (sess w) /\ Uid s = Uid (sess w)) /\
        (noInvoke new = true ->
           LastID s' = m_ID msg /\ Id s' = Id (sess w) /\ Uid s' = Uid (sess w))
  | Notify =>
      processMessage env hs msg w =
        recover (dispatch env hs msg)
          (mkWorld (status w) (setLastID 0 (sess w)) (trace w)) /\
      exists s' new,
        processMessage env hs msg w =
          (Done tt, mkWorld (status w) s' (trace w ++ new)) /\
        handedOnly (setLastID 0 (sess w)) new /\
        (noInvoke new = true -> s' = setLastID 0 (sess w)) /\
        (forall e s, List.In e new -> seenSession e = Some s ->
           LastID s = 0%Z /\ Id s = Id (sess w) /\ Uid s = Uid (sess w)) /\
        (noInvoke new = true ->
           LastID s' = 0%Z /\ Id s' = Id (sess w) /\ Uid s' = Uid (sess w))
  | Response | Push =>
      processMessage env hs msg w =
        (Done tt,
         mkWorld (status w) (sess w)
           (trace w ++ [ELog Error (Text "invalid message type")]))
  end.
Proof.
  pose proof (processMessage_spec env hs msg w) as Hspec.
  pose proof (processMessage_routable env hs msg w) as Hrun.
  pose proof (processMessage_unroutable env hs msg w) as Hno.
  unfold routable, stored, lastIDFor in *.
  destruct (m_Type msg).
  - split; [apply Hrun; reflexivity|].
    destruct (Hspec eq_refl) as (s' & new & H1 & _ & H2 & H3).
    exists s', new. repeat split; try assumption.
    + rewrite (H2 e s H H0). reflexivity.
    + rewrite (H2 e s H H0). reflexivity.
    + rewrite (H2 e s H H0). reflexivity.
    + rewrite (H3 H). reflexivity.
    + rewrite (H3 H). reflexivity.
    + rewrite (H3 H). reflexivity.
  - split; [apply Hrun; reflexivity|].
    destruct (Hspec eq_refl) as (s' & new & H1 & _ & H2 & H3).
    exists s', new. repeat split; try assumption.
    + rewrite (H2 e s H H0). reflexivity.
    + rewrite (H2 e s H H0). reflexivity.
    + rewrite (H2 e s H H0). reflexivity.
    + rewrite (H3 H). reflexivity.
    + rewrite (H3 H). reflexivity.
    + rewrite (H3 H). reflexivity.
  - apply Hno. reflexivity.
  - apply Hno. reflexivity.
Qed.

Lemma processMessage_LastID_witness :
  exists s' new,
    processMessage example.node example.registry example.unknownRequest example.fresh =
      (Done tt, mkWorld statusStart s' new) /\
    (noInvoke new = true -> LastID s' = 11%Z /\ Id s' = 1%Z /\ Uid s' = 0%Z).
Proof.
  destruct (processMessage_LastID example.node example.registry
              example.unknownRequest example.fresh)
    as (_ & s' & new & E & _ & _ & _ & H).
  exists s', new. split; [exact E | exact H].
Defined.

(** C8: for a routable message whose route decodes to [r], the handler
    is looked up and invoked locally exactly when [r.ServerType] is empty
    or equal to the node's server type, the empty type being replaced by
    the node's: the method found under [r.Service] and [r.Method] is
    called with the session and its data, its panic or error is logged,
    a missing service or method is logged, and the cluster is not
    called.  Otherwise the message goes to the cluster, with one call
    for [r] as it was decoded, and no local handler runs. *)
Theorem processMessage_routes env hs msg r w :
  routable msg = true ->
  route.Decode (m_Route msg) = inl r ->
  let s1 := setLastID (lastIDFor msg) (sess w) in
  let w1 := mkWorld (status w) s1 (trace w ++ [ELog Debug (Msg msg)]) in
  (ServerType r = EmptyString \/ ServerType r = appConfigType env ->
   processMessage env hs msg w =
     recover (localProcess env hs
                (mkRoute (appConfigType env) (Service r) (Method r)) msg) w1 /\
   noCall (trace (snd (processMessage env hs msg w))) = noCall (trace w) /\
   (forall s h arg,
       services hs !! Service r = Some s ->
       handlerMethods s !! Method r = Some h ->
       argumentFor env h msg = Some (inl arg) ->
       processMessage env hs msg w =
         (Done tt,
          mkWorld (status w) (fst (Func (method h) s1 arg))
            (trace w ++
               ELog Debug (Msg msg) ::
               EInvoke (name s) (Name (method h)) s1 arg ::
               match snd (Func (method h) s1 arg) with
               | Panics v => [ELog Error (Text ("processMessage Error: " +:+ v))]
               | Returns (Some e :: _) => [ELog Error (Text e)]
               | Returns _ => []
               end))) /\
   (Lookup hs (Service r) (Method r) = None ->
    exists text,
      processMessage env hs msg w =
        (Done tt,
         mkWorld (status w) s1
           (trace w ++ [ELog Debug (Msg msg); ELog Info (Text text)])))) /\
  (ServerType r <> EmptyString /\ ServerType r <> appConfigType env ->
   processMessage env hs msg w = recover (remoteProcess env r msg) w1 /\
   noInvoke (trace (snd (processMessage env hs msg w))) = noInvoke (trace w) /\
   noCall (trace (snd (processMessage env hs msg w))) = false /\
   processMessage env hs msg w =
     (Done tt,
      mkWorld (status w) s1
        (trace w ++
           ELog Debug (Msg msg) :: ECall Sys r s1 (m_Data msg) ::
           match snd (clusterCall env Sys r s1 (m_Data msg)) with
           | Some e => [ELog Error (Text e)]
           | None => []
           end))).
Proof.
  intros Hr Hd s1 w1. split.
  - intros Hloc.
    pose proof (processMessage_local env hs msg r w Hr Hd Hloc) as E.
    fold s1 in E. fold w1 in E. unfold localRoute in E.
    split; [exact E|]. split; [|split].
    + rewrite E.
      destruct (localProcess_spec env hs
                  (mkRoute (appConfigType env) (Service r) (Method r)) msg w1)
        as (res & s' & new & Hrunl & _ & Hnc & _).
      rewrite (recover_run _ _ _ _ Hrunl). cbn [snd w1 status sess trace].
      unfold noCall in *.
      destruct res; cbn [trace]; rewrite ?forallb_app, Hnc; cbn;
        rewrite ?andb_true_r; reflexivity.
    + intros s h arg Hs Hm Ha. rewrite E.
      pose proof (localProcess_found env hs
                    (mkRoute (appConfigType env) (Service r) (Method r))
                    msg w1 s h arg Hs Hm Ha) as Hl.
      cbv zeta in Hl. cbn [w1 sess status trace] in Hl.
      destruct (Func (method h) s1 arg) as [s' [v|[|[e|] rest]]];
        rewrite (recover_run _ _ _ _ Hl); cbn [fst snd status sess trace];
        rewrite <- ?app_assoc; reflexivity.
    + intros Hlook. rewrite E.
      destruct (localProcess_missing env hs
                  (mkRoute (appConfigType env) (Service r) (Method r)) msg w1 Hlook)
        as [text Ht].
      exists text. rewrite (recover_run _ _ _ _ Ht).
      cbn [w1 status sess trace]. rewrite <- app_assoc. reflexivity.
  - intros [Hn1 Hn2].
    pose proof (processMessage_remote env hs msg r w Hr Hd Hn1 Hn2) as E.
    fold s1 in E. fold w1 in E.
    split; [exact E|]. rewrite E.
    rewrite (recover_run _ _ _ _ (remoteProcess_run env r msg w1)).
    cbn [snd w1 status sess trace]. unfold noInvoke, noCall.
    rewrite !forallb_app. cbn [forallb isInvoke isCall negb andb].
    rewrite andb_false_r.
    split; [|split; [reflexivity|]].
    + destruct (snd (clusterCall env Sys r _ (m_Data msg))); cbn;
        rewrite ?andb_true_r; reflexivity.
    + rewrite <- app_assoc. reflexivity.
Qed.

Lemma processMessage_routes_witness :
  processMessage example.node example.registry example.sayRequest example.fresh =
    (Done tt,
     mkWorld statusStart (mkSession 1 0 7)
       [ELog Debug (Msg example.sayRequest);
        EInvoke "Echo" "Say" (mkSession 1 0 7) (Decoded "SayReq" [x7b; x7d])]) /\
  processMessage example.node example.registry example.joinRequest example.fresh =
    (Done tt,
     mkWorld statusStart (mkSession 1 0 3)
       [ELog Debug (Msg example.joinRequest);
        ECall Sys (mkRoute "chat" "room" "join") (mkSession 1 0 3) [x68; x69]]).
Proof.
  split.
  - pose proof (processMessage_routes example.node example.registry
                  example.sayRequest (mkRoute EmptyString "Echo" "Say") example.fresh
                  eq_refl eq_refl) as H.
    cbv zeta in H. destruct H as [H _].
    destruct (H (or_introl eq_refl)) as (_ & _ & Hfound & _).
    exact (Hfound (serviceOf example.Echo)
             (mkHandlerMethod example.Say (Pointer "SayReq") false)
             (Decoded "SayReq" [x7b; x7d]) eq_refl eq_refl eq_refl).
  - pose proof (processMessage_routes example.node example.registry
                  example.joinRequest (mkRoute "chat" "room" "join") example.fresh
                  eq_refl eq_refl) as H.
    cbv zeta in H. destruct H as [_ H].
    destruct H as (_ & _ & _ & H); [split; discriminate|].
    exact H.
Defined.

(** C1, as the code has it: [processPacket] never reads the agent's
    status on a [Data] packet.  In every state the payload is decoded
    and, when that succeeds, the message goes through [processMessage]
    and a heartbeat is started; the result, the session and the events
    are the same whatever the status, and the status is kept. *)
Theorem data_packet_any_status env hs p w :
  p_Type p = Data ->
  processPacket env hs p w =
    match messageDecode env (p_Data p) with
    | inr e => log Error e w
    | inl m => bind (processMessage env hs m) (fun _ => emit EHeartbeat) w
    end /\
  forall st,
    processPacket env hs p (withStatus st w) =
      (fst (processPacket env hs p w), withStatus st (snd (processPacket env hs p w))).
Proof.
  intros Hp. split; [apply processPacket_data; exact Hp|].
  intros st. rewrite !processPacket_data by exact Hp.
  destruct (messageDecode env (p_Data p)) as [m|e].
  - apply blind_bind; [apply blind_processMessage | intros _; apply blind_emit].
  - apply blind_emit.
Qed.

Lemma data_packet_any_status_witness :
  processPacket example.node example.registry (example.dataPacket x01)
    (withStatus statusClosed example.fresh) =
  (Done tt,
   mkWorld statusClosed (mkSession 1 0 7)
     [ELog Debug (Msg example.sayRequest);
      EInvoke "Echo" "Say" (mkSession 1 0 7) (Decoded "SayReq" [x7b; x7d]);
      EHeartbeat]).
Proof.
  destruct (data_packet_any_status example.node example.registry
              (example.dataPacket x01) example.fresh eq_refl) as [_ H].
  rewrite H. reflexivity.
Defined.

(** C1 fails as stated: an agent still in [start] receives a [Data]
    packet carrying a Request for [Echo.Say]; the handler is invoked. *)
Lemma data_packet_in_start_is_processed :
  status example.fresh = statusStart /\
  p_Type (example.dataPacket x01) = Data /\
  processPacket example.node example.registry (example.dataPacket x01) example.fresh =
    (Done tt,
     mkWorld statusStart (mkSession 1 0 7)
       [ELog Debug (Msg example.sayRequest);
        EInvoke "Echo" "Say" (mkSession 1 0 7) (Decoded "SayReq" [x7b; x7d]);
        EHeartbeat]) /\
  noInvoke (trace (snd (processPacket example.node example.registry
                          (example.dataPacket x01) example.fresh))) = false.
Proof. repeat split. Qed.

(** C2, as the code has it: a Request whose route names another server
    type makes exactly one [cluster.Call(rpc.Sys, route, session,
    msg.Data)], with [LastID] already stored in the session; the reply
    bytes are discarded, an error of the call is logged, and nothing is
    written to the agent. *)
Theorem remote_request_one_call env hs msg r w :
  m_Type msg = Request ->
  route.Decode (m_Route msg) = inl r ->
  ServerType r <> EmptyString -> ServerType r <> appConfigType env ->
  let s1 := setLastID (m_ID msg) (sess w) in
  processMessage env hs msg w =
    (Done tt,
     mkWorld (status w) s1
       (trace w ++ ELog Debug (Msg msg) :: ECall Sys r s1 (m_Data msg) ::
          match snd (clusterCall env Sys r s1 (m_Data msg)) with
          | Some e => [ELog Error (Text e)]
          | None => []
          end)).
Proof.
  intros Ht Hd Hn1 Hn2 s1.
  assert (Hr : routable msg = true) by (unfold routable; rewrite Ht; reflexivity).
  rewrite (processMessage_remote env hs msg r w Hr Hd Hn1 Hn2).
  unfold lastIDFor. rewrite Ht. fold s1.
  rewrite (recover_run _ _ _ _ (remoteProcess_run env r msg _)).
  cbn [status sess trace]. rewrite <- app_assoc. reflexivity.
Qed.

Lemma remote_request_one_call_witness :
  processMessage example.node example.registry example.joinRequest example.fresh =
    (Done tt,
     mkWorld statusStart (mkSession 1 0 3)
       [ELog Debug (Msg example.joinRequest);
        ECall Sys (mkRoute "chat" "room" "join") (mkSession 1 0 3) [x68; x69]]).
Proof.
  apply (remote_request_one_call example.node example.registry example.joinRequest
           (mkRoute "chat" "room" "join") example.fresh);
    [reflexivity | reflexivity | discriminate | discriminate].
Defined.

(** C2 fails as stated: on a connector node a Request with id 3 for
    [chat.room.join] is answered by the cluster with two reply bytes and
    no error, and no [Send] on the agent follows. *)
Lemma remote_reply_is_not_written_back :
  clusterCall example.node Sys (mkRoute "chat" "room" "join") (mkSession 1 0 3)
    (m_Data example.joinRequest) = ([x6f; x6b], None) /\
  filter (fun e => isSend e)
    (trace (snd (processMessage example.node example.registry
                   example.joinRequest example.fresh))) = [] /\
  filter (fun e => isCall e)
    (trace (snd (processMessage example.node example.registry
                   example.joinRequest example.fresh))) =
    [ECall Sys (mkRoute "chat" "room" "join") (mkSession 1 0 3) [x68; x69]].
Proof. repeat split. Qed.

(** C3, as the code has it: a locally routed message whose route names
    no registered service, or a method the service does not have, is
    logged and dropped, for a Request as for a Notify: the only events
    are the two log lines, no reply is sent. *)
Theorem unknown_route_logged_and_dropped env hs msg r w :
  routable msg = true ->
  route.Decode (m_Route msg) = inl r ->
  ServerType r = EmptyString \/ ServerType r = appConfigType env ->
  Lookup hs (Service r) (Method r) = None ->
  exists text,
    processMessage env hs msg w =
      (Done tt,
       mkWorld (status w) (setLastID (lastIDFor msg) (sess w))
         (trace w ++ [ELog Debug (Msg msg); ELog Info (Text text)])).
Proof.
  intros Hr Hd Hloc Hlook.
  rewrite (processMessage_local env hs msg r w Hr Hd Hloc).
  destruct (localProcess_missing env hs (localRoute env r) msg
              (mkWorld (status w) (setLastID (lastIDFor msg) (sess w))
                 (trace w ++ [ELog Debug (Msg msg)])) Hlook) as [text Ht].
  exists text. rewrite (recover_run _ _ _ _ Ht).
  cbn [status sess trace]. rewrite <- app_assoc. reflexivity.
Qed.

Lemma unknown_route_logged_and_dropped_witness :
  exists text,
    processMessage example.node example.registry example.unknownRequest example.fresh =
      (Done tt,
       mkWorld statusStart (mkSession 1 0 11)
         [ELog Debug (Msg example.unknownRequest); ELog Info (Text text)]).
Proof.
  apply (unknown_route_logged_and_dropped example.node example.registry
           example.unknownRequest (mkRoute EmptyString "nope" "none") example.fresh);
    [reflexivity | reflexivity | left; reflexivity | reflexivity].
Defined.

(** C3 fails as stated: the Request with id 11 for [nope.none] gets no
    Response; the log lines are all that happens. *)
Lemma unknown_request_gets_no_reply :
  m_Type example.unknownRequest = Request /\
  Lookup example.registry "nope" "none" = None /\
  processMessage example.node example.registry example.unknownRequest example.fresh =
    (Done tt,
     mkWorld statusStart (mkSession 1 0 11)
       [ELog Debug (Msg example.unknownRequest);
        ELog Info (Text "handler: service: nope not found")]) /\
  filter (fun e => isSend e)
    (trace (snd (processMessage example.node example.registry
                   example.unknownRequest example.fresh))) = [].
Proof. repeat split. Qed.

(** C4, as the code has it: when the handler of a locally routed message
    panics, the recovery barrier of [processMessage] catches the panic
    and logs it; [processMessage] returns, the agent is neither closed
    nor written to (no Response is sent, for a Request as for a Notify),
    and the processor goes on with the packets that follow. *)
Theorem handler_panic_is_recovered env hs msg r s m arg s' v w :
  routable msg = true ->
  route.Decode (m_Route msg) = inl r ->
  ServerType r = EmptyString \/ ServerType r = appConfigType env ->
  services hs !! Service r = Some s ->
  handlerMethods s !! Method r = Some m ->
  argumentFor env m msg = Some (inl arg) ->
  Func (method m) (setLastID (lastIDFor msg) (sess w)) arg = (s', Panics v) ->
  let after :=
    mkWorld (status w) s'
      (trace w ++
         [ELog Debug (Msg msg);
          EInvoke (name s) (Name (method m))
            (setLastID (lastIDFor msg) (sess w)) arg;
          ELog Error (Text ("processMessage Error: " +:+ v))]) in
  processMessage env hs msg w = (Done tt, after) /\
  forall p ps,
    p_Type p = Data -> messageDecode env (p_Data p) = inl msg ->
    processor env hs (p :: ps) w =
      processor env hs ps
        (mkWorld (status after) (sess after) (trace after ++ [EHeartbeat])).
Proof.
  intros Hr Hd Hloc Hs Hm Ha Hf after.
  assert (E : processMessage env hs msg w = (Done tt, after)).
  { rewrite (processMessage_local env hs msg r w Hr Hd Hloc).
    set (w1 := mkWorld (status w) (setLastID (lastIDFor msg) (sess w))
                 (trace w ++ [ELog Debug (Msg msg)])).
    pose proof (localProcess_found env hs (localRoute env r)
                  msg w1 s m arg Hs Hm Ha) as Hl.
    cbv zeta in Hl. cbn [w1 sess status trace] in Hl. rewrite Hf in Hl.
    rewrite (recover_run _ _ _ _ Hl). cbn [status sess trace].
    unfold after. rewrite <- !app_assoc. reflexivity. }
  split; [exact E|].
  intros p ps Hp Hdec. rewrite processor_step.
  rewrite (processPacket_data env hs p w Hp), Hdec.
  unfold bind. rewrite E. reflexivity.
Qed.

Lemma handler_panic_is_recovered_witness :
  processMessage example.node example.registry example.boomRequest example.fresh =
    (Done tt,
     mkWorld statusStart (mkSession 1 0 9)
       [ELog Debug (Msg example.boomRequest);
        EInvoke "Echo" "Boom" (mkSession 1 0 9) (Raw [x00]);
        ELog Error (Text "processMessage Error: boom")]).
Proof.
  refine (proj1 (handler_panic_is_recovered example.node example.registry
                   example.boomRequest (mkRoute EmptyString "Echo" "Boom")
                   (serviceOf example.Echo)
                   (mkHandlerMethod example.Boom ByteSlice true)
                   (Raw [x00]) (mkSession 1 0 9) "boom" example.fresh
                   eq_refl eq_refl (or_introl eq_refl) eq_refl eq_refl eq_refl eq_refl)).
Defined.

(** C4 fails as stated: the handler of the Request with id 9 panics; the
    panic is logged, the next packet is processed, but no Response goes
    to the client. *)
Lemma panicking_request_gets_no_reply :
  m_Type example.boomRequest = Request /\
  processor example.node example.registry
    [example.dataPacket x02; example.dataPacket x01] example.fresh =
    (Done tt,
     mkWorld statusStart (mkSession 1 0 7)
       [ELog Debug (Msg example.boomRequest);
        EInvoke "Echo" "Boom" (mkSession 1 0 9) (Raw [x00]);
        ELog Error (Text "processMessage Error: boom");
        EHeartbeat;
        ELog Debug (Msg example.sayRequest);
        EInvoke "Echo" "Say" (mkSession 1 0 7) (Decoded "SayReq" [x7b; x7d]);
        EHeartbeat]) /\
  filter (fun e => isSend e)
    (trace (snd (processor example.node example.registry
                   [example.dataPacket x02; example.dataPacket x01]
                   example.fresh))) = [].
Proof. repeat split. Qed.

Lemma append_assoc (a b c : string) : (a +:+ b) +:+ c = a +:+ (b +:+ c).
Proof.
  induction a as [|x a IH]; [reflexivity|].
  change (String x ((a +:+ b) +:+ c) = String x (a +:+ (b +:+ c))).
  f_equal. exact IH.
Qed.

(** C6: a [Handshake] packet sets the status to [handshake] and sends one
    [Handshake] packet whose body is the JSON text
    [{"code":200,"sys":{"heartbeat":<seconds>}}]; if the send fails the
    error is logged and the agent is closed. *)
Theorem handshake_reply env hs p w :
  p_Type p = Handshake ->
  let body := list_byte_of_string (handshakeText (heartbeatSeconds env)) in
  let frame := Handshake :: intToBytes (len body) ++ body in
  json.Marshal (handshakeReply env) = handshakeText (heartbeatSeconds env) /\
  Pack (mkPacket Handshake (len body) body) = (frame, None) /\
  processPacket env hs p w =
    match socketWrite env statusHandshake frame with
    | None =>
        (Done tt, mkWorld statusHandshake (sess w) (trace w ++ [ESend frame]))
    | Some e =>
        (Done tt,
         mkWorld statusClosed (sess w)
           (trace w ++ [ESend frame; ELog Error (Text e); EClose]))
    end.
Proof.
  intros Hp body frame.
  assert (Hj : json.Marshal (handshakeReply env) = handshakeText (heartbeatSeconds env)).
  { change (json.Marshal (handshakeReply env))
      with (handshakePrefix +:+ ((heartbeatSeconds env +:+ "}") +:+ "}")).
    unfold handshakeText. f_equal. apply append_assoc. }
  split; [exact Hj|]. split; [reflexivity|].
  unfold processPacket. rewrite Hp. cbv iota beta delta [Handshake].
  rewrite Hj. fold body.
  unfold Send, log, close, Pack.
  cbn [fst snd p_Type p_Data Handshake validType].
  change (x01 :: intToBytes (len body) ++ body) with frame.
  unfold bind, setStatus, emit, ret. cbn [fst snd status sess trace].
  destruct (socketWrite env statusHandshake frame);
    cbn [status sess trace]; rewrite <- ?app_assoc; reflexivity.
Qed.

Lemma handshake_reply_witness :
  processPacket example.node example.registry (mkPacket Handshake 2 [x7b; x7d])
    example.fresh =
  (Done tt,
   mkWorld statusHandshake (mkSession 1 0 0)
     [ESend (Handshake :: [x00; x00; x23] ++
             list_byte_of_string (handshakeText "30"))]) /\
  processPacket example.brokenNode example.registry (mkPacket Handshake 2 [x7b; x7d])
    example.fresh =
  (Done tt,
   mkWorld statusClosed (mkSession 1 0 0)
     [ESend (Handshake :: [x00; x00; x23] ++
             list_byte_of_string (handshakeText "30"));
      ELog Error (Text "broken pipe"); EClose]).
Proof.
  split.
  - exact (proj2 (proj2 (handshake_reply example.node example.registry
                           (mkPacket Handshake 2 [x7b; x7d]) example.fresh eq_refl))).
  - exact (proj2 (proj2 (handshake_reply example.brokenNode example.registry
                           (mkPacket Handshake 2 [x7b; x7d]) example.fresh eq_refl))).
Defined.

(* ===================================================================== *)
(** * The scenarios of the specification, evaluated *)
(* ===================================================================== *)

(** Two packets back to back, read in three pieces none of which ends
    between a complete header and the end of its body: both are decoded,
    in order. *)
Example split_framing_between_headers :
  option_map reader.decoded
    (reader.reads 2 reader.start
       [[x03; x00]; [x00; x00; x04]; [x00; x00; x01; xaa]])
  = Some [mkPacket Heartbeat 0 []; mkPacket Data 1 [xaa]].
Proof. reflexivity. Qed.

(** A value whose methods have pointer receivers is rejected with the
    hint to pass a pointer; a second registration of [Echo] is rejected
    as well. *)
Example Register_value_receiver :
  Register newHandlerService example.EchoValue =
    (newHandlerService,
     Some ("handler.Register: type Echo has no exported methods of suitable type"
           +:+ " (hint: pass a pointer to value of that type)")) /\
  snd (Register example.registry example.Echo) =
    Some "handler: service already defined: Echo" /\
  raw <$> Lookup example.registry "Echo" "Say" = Some false.
Proof. repeat split. Qed.

(** A Push message is rejected: one error is logged, [LastID] stays. *)
Example push_is_rejected :
  processMessage example.node example.registry example.pushMessage example.fresh =
    (Done tt,
     mkWorld statusStart (mkSession 1 0 0)
       [ELog Error (Text "invalid message type")]).
Proof. reflexivity. Qed.

(** Handshake, acknowledgement, then the Request with id 7 for
    [Echo.Say]: the agent ends in [working] with [LastID] 7. *)
Example handshake_ack_request :
  let w := snd (processor example.node example.registry
                  [mkPacket Handshake 2 [x7b; x7d];
                   mkPacket HandshakeAck 0 [];
                   example.dataPacket x01] example.fresh) in
  status w = statusWorking /\ LastID (sess w) = 7%Z /\
  filter (fun e => isInvoke e) (trace w) =
    [EInvoke "Echo" "Say" (mkSession 1 0 7) (Decoded "SayReq" [x7b; x7d])].
Proof. repeat split. Qed.

(* ===================================================================== *)
(** * Further properties of the registry *)
(* ===================================================================== *)

Import behaviour.

(** What an accepted component leaves behind. *)
Lemma Register_accepted hs c :
  snd (Register hs c) = None ->
  ~ rejected hs c /\
  fst (Register hs c) =
    mkHandlerService (Some (<[indirectName c := serviceOf c]> (services hs))).
Proof.
  intros H. destruct (Register_cases hs c) as [(_ & _ & e & He)|(R & E)].
  - rewrite He in H. discriminate.
  - rewrite E. split; [exact R | reflexivity].
Qed.

Lemma not_rejected hs c :
  ~ rejected hs c ->
  indirectName c <> EmptyString /\ isExported (indirectName c) = true /\
  services hs !! indirectName c = None /\
  suitableHandlerMethods (methods c) true <> ∅.
Proof.
  unfold rejected. intros R. repeat split.
  - tauto.
  - destruct (isExported (indirectName c)); [reflexivity | tauto].
  - destruct (services hs !! indirectName c) eqn:E; [|reflexivity].
    exfalso. apply R. right. right. left. eauto.
  - tauto.
Qed.

(** X1: [Register] never removes or replaces a service: whatever the
    component and whether the call succeeds or fails, every service that
    was in the map is still there, unchanged. *)
Theorem Register_keeps_existing hs c k s :
  services hs !! k = Some s ->
  services (fst (Register hs c)) !! k = Some s.
Proof.
  intros Hk. destruct (Register_cases hs c) as [(_ & -> & _)|(R & ->)].
  - rewrite services_allocated. exact Hk.
  - destruct (not_rejected hs c R) as (_ & _ & Hfree & _).
    unfold services at 1. cbn [fst serviceMap].
    rewrite lookup_insert_ne; [exact Hk|].
    intros E. rewrite <- E in Hk. congruence.
Qed.

Lemma Register_keeps_existing_witness :
  services (fst (Register example.registry example.EchoValue)) !! "Echo"
  = Some (serviceOf example.Echo).
Proof.
  apply (Register_keeps_existing example.registry example.EchoValue "Echo"
           (serviceOf example.Echo)).
  reflexivity.
Defined.

(** X2: after a successful [Register] the methods of the new service are
    found by [Lookup] exactly as discovery returned them, the name was
    free before, and the methods of every other service are found as
    before. *)
Theorem Register_then_Lookup hs c :
  snd (Register hs c) = None ->
  (forall meth,
      Lookup (fst (Register hs c)) (indirectName c) meth =
      suitableHandlerMethods (methods c) true !! meth) /\
  (forall meth, Lookup hs (indirectName c) meth = None) /\
  (forall svc meth,
      svc <> indirectName c ->
      Lookup (fst (Register hs c)) svc meth = Lookup hs svc meth).
Proof.
  intros H. destruct (Register_accepted hs c H) as [R ->].
  destruct (not_rejected hs c R) as (_ & _ & Hfree & _).
  split; [|split].
  - intros meth. unfold Lookup, services. cbn [serviceMap].
    rewrite lookup_insert_eq. reflexivity.
  - intros meth. unfold Lookup. rewrite Hfree. reflexivity.
  - intros svc meth Hne. unfold Lookup, services at 1. cbn [serviceMap].
    rewrite lookup_insert_ne by congruence. reflexivity.
Qed.

Lemma Register_then_Lookup_witness :
  raw <$> Lookup (fst (Register newHandlerService example.Echo)) "Echo" "Boom"
  = Some true.
Proof.
  destruct (Register_then_Lookup newHandlerService example.Echo eq_refl) as [H _].
  change (indirectName example.Echo) with "Echo" in H.
  rewrite H. reflexivity.
Defined.

(** X3: a name can be registered once.  After a successful [Register]
    every further component whose type has the same name is refused with
    the error of a service already defined, and the handler service stays
    as it is. *)
Theorem Register_same_name_again hs c c' :
  snd (Register hs c) = None ->
  indirectName c' = indirectName c ->
  Register (fst (Register hs c)) c' =
    (fst (Register hs c),
     Some ("handler: service already defined: " +:+ indirectName c)).
Proof.
  intros H Hname. destruct (Register_accepted hs c H) as [R ->].
  destruct (not_rejected hs c R) as (Hne & Hexp & _ & _).
  unfold Register. cbn [serviceMap]. rewrite Hname.
  rewrite decide_False by exact Hne. rewrite Hexp. cbn [negb].
  unfold services at 1. cbn [serviceMap]. rewrite lookup_insert_eq.
  reflexivity.
Qed.

Lemma Register_same_name_again_witness :
  Register example.registry example.EchoValue =
    (example.registry, Some "handler: service already defined: Echo").
Proof.
  exact (Register_same_name_again newHandlerService example.Echo example.EchoValue
           eq_refl eq_refl).
Defined.

Lemma wellKeyed_new : wellKeyed newHandlerService.
Proof. intros k s H. unfold services in H. cbn in H. rewrite lookup_empty in H. discriminate. Qed.

Lemma wellKeyed_Register hs c : wellKeyed hs -> wellKeyed (fst (Register hs c)).
Proof.
  intros W. destruct (Register_cases hs c) as [(_ & -> & _)|(R & ->)].
  - intros k s. rewrite services_allocated. apply W.
  - destruct (not_rejected hs c R) as (_ & Hexp & _ & Hm).
    intros k s. unfold services at 1. cbn [fst serviceMap]. intros Hk.
    destruct (decide (indirectName c = k)) as [<-|Hne].
    + rewrite lookup_insert_eq in Hk. injection Hk as <-.
      repeat split; [exact Hexp | exact Hm].
    + rewrite lookup_insert_ne in Hk by exact Hne. apply W. exact Hk.
Qed.

(** X4: whatever components are registered on a new handler service, in
    whatever order and with whatever errors, every service in the map is
    stored under the name it carries, that name is exported, and the
    service has at least one handler method. *)
Theorem registerAll_wellKeyed cs : wellKeyed (registerAll cs newHandlerService).
Proof.
  assert (G : forall hs, wellKeyed hs -> wellKeyed (registerAll cs hs)).
  { induction cs as [|c cs IH]; intros hs W; [exact W|].
    cbn [registerAll]. apply IH. apply wellKeyed_Register. exact W. }
  apply G. apply wellKeyed_new.
Qed.

(** A loop whose body only appends events appends them entry by entry. *)
Lemma forEach_appends {A} (l : list A) (body : A -> M unit) (g : A -> list event) :
  (forall a w, body a w = (Done tt, mkWorld (status w) (sess w) (trace w ++ g a))) ->
  forall w,
    forEach l body w =
      (Done tt, mkWorld (status w) (sess w) (trace w ++ flat_map g l)).
Proof.
  intros Hb. induction l as [|a l IH]; intros w.
  - cbn [forEach flat_map]. rewrite app_nil_r. destruct w; reflexivity.
  - cbn [forEach flat_map]. unfold bind. rewrite Hb, IH.
    cbn [status sess trace]. rewrite <- app_assoc. reflexivity.
Qed.

Lemma dumpPairs_lines hs :
  flat_map (fun kv : string * service =>
              flat_map (fun km : string * handlerMethod =>
                          [ELog Info (Text ("registered service: " +:+ fst kv +:+ "." +:+ fst km))])
                (map_to_list (handlerMethods (snd kv))))
    (map_to_list (services hs))
  = map dumpLine (dumpPairs hs).
Proof.
  unfold dumpPairs.
  induction (map_to_list (services hs)) as [|kv l IH]; [reflexivity|].
  cbn [flat_map]. rewrite map_app, IH. f_equal.
  induction (map_to_list (handlerMethods (snd kv))) as [|km l' IH']; [reflexivity|].
  cbn [flat_map map app]. rewrite IH'. reflexivity.
Qed.

Lemma dumpPairs_elem hs svc meth :
  List.In (svc, meth) (dumpPairs hs) <-> is_Some (Lookup hs svc meth).
Proof.
  unfold dumpPairs, Lookup. rewrite in_flat_map. split.
  - intros ([k s] & Hin & Hm). cbn [fst snd] in Hm.
    apply in_map_iff in Hm. destruct Hm as ([m h] & E & Hin').
    cbn [fst] in E. injection E as <- <-.
    apply list_elem_of_In, elem_of_map_to_list in Hin.
    apply list_elem_of_In, elem_of_map_to_list in Hin'.
    rewrite Hin. eauto.
  - intros [h Hh]. destruct (services hs !! svc) as [s|] eqn:Hs; [|discriminate].
    exists (svc, s). split.
    + apply list_elem_of_In, elem_of_map_to_list. exact Hs.
    + cbn [fst snd]. apply in_map_iff. exists (meth, h). split; [reflexivity|].
      apply list_elem_of_In, elem_of_map_to_list. exact Hh.
Qed.

Lemma NoDup_pairs {A B} (l : list (string * A)) (f : A -> list (string * B)) :
  List.NoDup (map fst l) ->
  (forall a, List.NoDup (map fst (f a))) ->
  List.NoDup (flat_map (fun kv => map (fun km => (fst kv, fst km)) (f (snd kv))) l).
Proof.
  intros Hl Hf. induction l as [|[k a] l IH]; [constructor|].
  cbn [flat_map map fst snd] in *. inversion Hl as [|? ? Hk Hl']; subst.
  apply List.NoDup_app.
  - specialize (Hf a). induction (f a) as [|[m b] fa IHf]; [constructor|].
    cbn [map fst] in *. inversion Hf as [|? ? Hm Hf']; subst.
    constructor; [|apply IHf; exact Hf'].
    intros Hin. apply Hm. apply in_map_iff in Hin.
    destruct Hin as ([m' b'] & E & Hin). cbn [fst] in E. injection E as ->.
    apply in_map_iff. exists (m, b'). split; [reflexivity | exact Hin].
  - apply IH. exact Hl'.
  - intros [k' m'] Hin1 Hin2.
    apply in_map_iff in Hin1. destruct Hin1 as (km & E & _). injection E as <- _.
    apply in_flat_map in Hin2. destruct Hin2 as ([k2 a2] & Hin2 & Hin3).
    cbn [fst snd] in Hin3. apply in_map_iff in Hin3.
    destruct Hin3 as (km' & E & _). injection E as E _. subst k2.
    apply Hk. apply in_map_iff. exists (k, a2). split; [reflexivity | exact Hin2].
Qed.

(** X5: [dumpServiceMap] changes nothing but the log: it writes one info
    line per registered (service, method) pair, each pair once, and the
    pairs are exactly those [Lookup] finds. *)
Theorem dumpServiceMap_logs_registry hs w :
  dumpServiceMap hs w =
    (Done tt,
     mkWorld (status w) (sess w) (trace w ++ map dumpLine (dumpPairs hs))) /\
  (forall svc meth,
      List.In (svc, meth) (dumpPairs hs) <-> is_Some (Lookup hs svc meth)) /\
  List.NoDup (dumpPairs hs).
Proof.
  split; [|split].
  - unfold dumpServiceMap.
    rewrite (forEach_appends _ _
               (fun kv : string * service =>
                  flat_map (fun km : string * handlerMethod =>
                              [ELog Info (Text ("registered service: " +:+ fst kv +:+ "." +:+ fst km))])
                    (map_to_list (handlerMethods (snd kv))))).
    + rewrite dumpPairs_lines. reflexivity.
    + intros kv w0. apply forEach_appends. intros km w1. reflexivity.
  - apply dumpPairs_elem.
  - unfold dumpPairs.
    apply (NoDup_pairs (map_to_list (services hs))
             (fun s : service => map_to_list (handlerMethods s))).
    + apply NoDup_ListNoDup, NoDup_fst_map_to_list.
    + intros s. apply NoDup_ListNoDup, NoDup_fst_map_to_list.
Qed.

(* ===================================================================== *)
(** * Further properties of message dispatch *)
(* ===================================================================== *)

(** X6: on a handler service filled by [Register], a locally routed
    message whose service name is not exported (it starts with a
    lower-case letter, say) never reaches a handler: the lookup fails and
    the message is logged as service not found and dropped. *)
Theorem unexported_service_is_never_found env hs msg r w :
  wellKeyed hs ->
  routable msg = true ->
  route.Decode (m_Route msg) = inl r ->
  ServerType r = EmptyString \/ ServerType r = appConfigType env ->
  isExported (Service r) = false ->
  processMessage env hs msg w =
    (Done tt,
     mkWorld (status w) (setLastID (lastIDFor msg) (sess w))
       (trace w ++
          [ELog Debug (Msg msg);
           ELog Info (Text ("handler: service: " +:+ Service r +:+ " not found"))])).
Proof.
  intros W Hr Hd Hloc Hx.
  assert (Hnone : services hs !! Service r = None).
  { destruct (services hs !! Service r) as [s|] eqn:E; [|reflexivity].
    destruct (W _ _ E) as (_ & Hexp & _). congruence. }
  rewrite (processMessage_local env hs msg r w Hr Hd Hloc).
  unfold recover, localProcess, localRoute. cbn [Service Method].
  rewrite Hnone. unfold log, emit. cbn [status sess trace].
  rewrite <- ?app_assoc. reflexivity.
Qed.

Lemma unexported_service_is_never_found_witness :
  processMessage example.node example.registry example.unknownRequest example.fresh =
    (Done tt,
     mkWorld statusStart (mkSession 1 0 11)
       [ELog Debug (Msg example.unknownRequest);
        ELog Info (Text "handler: service: nope not found")]).
Proof.
  apply (unexported_service_is_never_found example.node example.registry
           example.unknownRequest (mkRoute EmptyString "nope" "none") example.fresh).
  - apply wellKeyed_Register, wellKeyed_new.
  - reflexivity.
  - reflexivity.
  - left. reflexivity.
  - reflexivity.
Defined.

(** X7: a Request or Notify whose route does not decode is dropped with
    the decoder's error in the log, but only after [LastID] has been
    overwritten: the session keeps the id of the dropped Request (0 for a
    Notify), and nothing is invoked or called. *)
Theorem undecodable_route_is_dropped env hs msg e w :
  routable msg = true ->
  route.Decode (m_Route msg) = inr e ->
  processMessage env hs msg w =
    (Done tt,
     mkWorld (status w) (setLastID (lastIDFor msg) (sess w))
       (trace w ++ [ELog Debug (Msg msg); ELog Error (Text e)])).
Proof.
  intros Hr Hd. rewrite (processMessage_routable env hs msg w Hr).
  unfold recover, dispatch, log, bind, emit, stored. rewrite Hd.
  cbn [status sess trace]. rewrite <- ?app_assoc. reflexivity.
Qed.

Lemma undecodable_route_is_dropped_witness :
  processMessage example.node example.registry
    (mkMessage Request 5 "justonename" []) example.fresh =
    (Done tt,
     mkWorld statusStart (mkSession 1 0 5)
       [ELog Debug (Msg (mkMessage Request 5 "justonename" []));
        ELog Error (Text "BadRoute")]).
Proof.
  apply (undecodable_route_is_dropped example.node example.registry
           (mkMessage Request 5 "justonename" []) "BadRoute" example.fresh);
    reflexivity.
Defined.

(** X8: when the method takes a decoded object and the serializer rejects
    the payload, the handler is not invoked: the error is logged as a
    deserialize error, the message is dropped, and no reply is sent. *)
Theorem deserialize_error_is_dropped env hs msg r s m elem e w :
  routable msg = true ->
  route.Decode (m_Route msg) = inl r ->
  ServerType r = EmptyString \/ ServerType r = appConfigType env ->
  services hs !! Service r = Some s ->
  handlerMethods s !! Method r = Some m ->
  raw m = false -> dataType m = Pointer elem ->
  Deserialize env (m_Data msg) elem = Some e ->
  processMessage env hs msg w =
    (Done tt,
     mkWorld (status w) (setLastID (lastIDFor msg) (sess w))
       (trace w ++
          [ELog Debug (Msg msg);
           ELog Error (Text ("deserialize error: " +:+ e))])).
Proof.
  intros Hr Hd Hloc Hs Hm Hraw Hty Hde.
  rewrite (processMessage_local env hs msg r w Hr Hd Hloc).
  unfold recover, localProcess, localRoute, argumentFor. cbn [Service Method].
  rewrite Hs, Hm, Hraw, Hty, Hde. unfold log, emit. cbn [status sess trace].
  rewrite <- ?app_assoc. reflexivity.
Qed.

Lemma deserialize_error_is_dropped_witness :
  let strict :=
    mkEnv "connector" "30" example.decode (fun _ _ => Some "unexpected end of JSON input")
      (fun _ _ _ _ => ([], None)) (fun _ _ => None) in
  processMessage strict example.registry example.sayRequest example.fresh =
    (Done tt,
     mkWorld statusStart (mkSession 1 0 7)
       [ELog Debug (Msg example.sayRequest);
        ELog Error (Text "deserialize error: unexpected end of JSON input")]).
Proof.
  intros strict.
  apply (deserialize_error_is_dropped strict example.registry example.sayRequest
           (mkRoute EmptyString "Echo" "Say") (serviceOf example.Echo)
           (mkHandlerMethod example.Say (Pointer "SayReq") false) "SayReq"
           "unexpected end of JSON input" example.fresh);
    first [reflexivity | left; reflexivity].
Defined.

(** X9: when the handler returns, its first result decides: an error is
    logged, nil or no result at all adds nothing.  The session is the one
    the handler left, the status is untouched, and whatever the handler
    returned no reply is sent by the dispatcher. *)
Theorem handler_result_is_only_logged env hs msg r s m arg s' ret w :
  routable msg = true ->
  route.Decode (m_Route msg) = inl r ->
  ServerType r = EmptyString \/ ServerType r = appConfigType env ->
  services hs !! Service r = Some s ->
  handlerMethods s !! Method r = Some m ->
  argumentFor env m msg = Some (inl arg) ->
  Func (method m) (setLastID (lastIDFor msg) (sess w)) arg = (s', Returns ret) ->
  processMessage env hs msg w =
    (Done tt,
     mkWorld (status w) s'
       (trace w ++
          ELog Debug (Msg msg) ::
          EInvoke (name s) (Name (method m))
            (setLastID (lastIDFor msg) (sess w)) arg ::
          match ret with
          | Some e :: _ => [ELog Error (Text e)]
          | _ => []
          end)).
Proof.
  intros Hr Hd Hloc Hs Hm Ha Hf.
  rewrite (processMessage_local env hs msg r w Hr Hd Hloc).
  set (w1 := mkWorld (status w) (setLastID (lastIDFor msg) (sess w))
               (trace w ++ [ELog Debug (Msg msg)])).
  pose proof (localProcess_found env hs (localRoute env r) msg w1 s m arg Hs Hm Ha) as Hl.
  cbv zeta in Hl. cbn [w1 sess status trace] in Hl. rewrite Hf in Hl.
  destruct ret as [|[e|] rest];
    rewrite (recover_run _ _ _ _ Hl); rewrite <- ?app_assoc; reflexivity.
Qed.

Lemma handler_result_is_only_logged_witness :
  processMessage example.node example.registry example.sayRequest example.fresh =
    (Done tt,
     mkWorld statusStart (mkSession 1 0 7)
       [ELog Debug (Msg example.sayRequest);
        EInvoke "Echo" "Say" (mkSession 1 0 7) (Decoded "SayReq" [x7b; x7d])]).
Proof.
  apply (handler_result_is_only_logged example.node example.registry
           example.sayRequest (mkRoute EmptyString "Echo" "Say")
           (serviceOf example.Echo)
           (mkHandlerMethod example.Say (Pointer "SayReq") false)
           (Decoded "SayReq" [x7b; x7d]) (mkSession 1 0 7) [None] example.fresh);
    first [reflexivity | left; reflexivity].
Defined.



(** ** What [processMessage] is confined to *)

Lemma confined_ret {A} P (a : A) : confined P (ret a).
Proof.
  intros w. exists (Done a), (sess w), []. rewrite app_nil_r.
  destruct w; split; reflexivity.
Qed.

Lemma confined_panic {A} P v : confined P (@panic A v).
Proof.
  intros w. exists (Panic v), (sess w), []. rewrite app_nil_r.
  destruct w; split; reflexivity.
Qed.

Lemma confined_emit P e : P e = true -> confined P (emit e).
Proof.
  intros He w. exists (Done tt), (sess w), [e]. split; [reflexivity|].
  cbn [forallb]. rewrite He. reflexivity.
Qed.

Lemma confined_getSession P : confined P getSession.
Proof.
  intros w. exists (Done (sess w)), (sess w), []. rewrite app_nil_r.
  destruct w; split; reflexivity.
Qed.

Lemma confined_putSession P s : confined P (putSession s).
Proof.
  intros w. exists (Done tt), s, []. rewrite app_nil_r. split; reflexivity.
Qed.

Lemma confined_bind {A B} P (c : M A) (k : A -> M B) :
  confined P c -> (forall a, confined P (k a)) -> confined P (bind c k).
Proof.
  intros Hc Hk w. unfold bind.
  destruct (Hc w) as (res & s1 & new1 & -> & H1).
  destruct res as [a|v].
  - destruct (Hk a (mkWorld (status w) s1 (trace w ++ new1)))
      as (res & s2 & new2 & -> & H2).
    exists res, s2, (new1 ++ new2). cbn [status trace]. rewrite <- app_assoc.
    split; [reflexivity|]. rewrite forallb_app, H1, H2. reflexivity.
  - exists (Panic v), s1, new1. split; [reflexivity | exact H1].
Qed.

Lemma confined_recover P c :
  (forall l t, P (ELog l t) = true) -> confined P c -> confined P (recover c).
Proof.
  intros HP Hc w. unfold recover.
  destruct (Hc w) as (res & s1 & new1 & -> & H1).
  destruct res as [a|v].
  - exists (Done tt), s1, new1. split; [reflexivity | exact H1].
  - exists (Done tt), s1,
      (new1 ++ [ELog Error (Text ("processMessage Error: " +:+ v))]).
    unfold log, emit. cbn [status sess trace]. rewrite <- app_assoc.
    split; [reflexivity|]. rewrite forallb_app, H1. cbn [forallb].
    rewrite HP. reflexivity.
Qed.

Ltac confine :=
  repeat first
    [ apply confined_ret | apply confined_panic
    | apply confined_emit; reflexivity
    | apply confined_getSession | apply confined_putSession
    | apply confined_recover; [reflexivity|]
    | apply confined_bind; [|intros ?]
    | match goal with
      | |- confined _ (match ?x with _ => _ end) => destruct x
      | |- confined _ (if ?x then _ else _) => destruct x
      end ].

Lemma confined_processMessage env hs msg :
  confined dispatchOnly (processMessage env hs msg).
Proof.
  unfold processMessage, dispatch, localProcess, remoteProcess, call, log.
  confine.
Qed.

Lemma dispatchOnly_filters new :
  forallb dispatchOnly new = true ->
  List.filter isHeartbeat new = [] /\ List.filter isClose new = [] /\
  List.filter isSend new = [].
Proof.
  induction new as [|e new IH]; [repeat split|].
  cbn [forallb]. intros H. apply andb_true_iff in H. destruct H as [He H].
  destruct (IH H) as (H1 & H2 & H3).
  destruct e; try discriminate; cbn; auto.
Qed.

(** X11: whatever the message and the registry, and whatever the handler
    and the cluster return, [processMessage] returns normally and its own
    actions are log lines, one handler invocation or one cluster call:
    the handler service itself never writes to the socket, never closes
    the agent, never assigns the status and never starts a heartbeat in
    [processMessage].  (What the invoked handler does on its own through
    the session pointer is not an action of the handler service.) *)
Theorem processMessage_only_logs_invokes_calls env hs msg w :
  exists s' new,
    processMessage env hs msg w =
      (Done tt, mkWorld (status w) s' (trace w ++ new)) /\
    forallb dispatchOnly new = true /\
    List.filter isSend new = [] /\ List.filter isClose new = [] /\
    List.filter isHeartbeat new = [].
Proof.
  destruct (confined_processMessage env hs msg w) as (res & s' & new & E & Hn).
  pose proof (processMessage_returns env hs msg w) as Hret.
  rewrite E in Hret. cbn [fst] in Hret. subst res.
  destruct (dispatchOnly_filters new Hn) as (H1 & H2 & H3).
  exists s', new. auto.
Qed.

(* ===================================================================== *)
(** * Further properties of the packet processor *)
(* ===================================================================== *)

(** A message adds neither heartbeat nor close to the trace. *)
Lemma processMessage_only_logs_invokes_calls_aux env hs msg w :
  exists s' new,
    processMessage env hs msg w =
      (Done tt, mkWorld (status w) s' (trace w ++ new)) /\
    List.filter isHeartbeat new = [] /\ List.filter isClose new = [].
Proof.
  destruct (confined_processMessage env hs msg w) as (res & s' & new & E & Hn).
  pose proof (processMessage_returns env hs msg w) as Hret.
  rewrite E in Hret. cbn [fst] in Hret. subst res.
  destruct (dispatchOnly_filters new Hn) as (H1 & H2 & _).
  exists s', new. auto.
Qed.

(** One packet: it is always processed to the end, and what it adds to
    the trace and does to the status depends on its type only through
    [startsHeartbeat], [closesAgent] and [isTraffic]. *)
Lemma processPacket_summary env hs p w :
  exists st' s' new,
    processPacket env hs p w = (Done tt, mkWorld st' s' (trace w ++ new)) /\
    List.filter isHeartbeat new =
      (if startsHeartbeat env p then [EHeartbeat] else []) /\
    List.filter isClose new = (if closesAgent env p then [EClose] else []) /\
    (isTraffic p = true -> st' = status w) /\
    (p_Type p = HandshakeAck -> st' = statusWorking).
Proof.
  unfold processPacket, startsHeartbeat, closesAgent, isTraffic, handshakeFrame.
  destruct (p_Type p) eqn:Hty;
    try (exists statusClosed, (sess w),
           [ELog Info (Text "invalid packet type"); EClose];
         unfold close, log, setStatus, bind, emit; cbn [status sess trace];
         rewrite <- ?app_assoc;
         repeat split; try reflexivity; discriminate).
  - (* Handshake *)
    unfold close, Send, log, setStatus, bind, emit, ret, Pack.
    cbn [fst snd status sess trace p_Type p_Data Handshake validType].
    destruct (socketWrite env statusHandshake _) as [e|];
      cbn [status sess trace]; rewrite <- ?app_assoc;
      do 3 eexists; (split; [reflexivity|]);
      repeat split; try reflexivity; discriminate.
  - (* HandshakeAck *)
    exists statusWorking, (sess w), []. rewrite app_nil_r.
    repeat split; try reflexivity. discriminate.
  - (* Heartbeat *)
    exists (status w), (sess w), [EHeartbeat].
    repeat split; try reflexivity. discriminate.
  - (* Data *)
    destruct (messageDecode env (p_Data p)) as [m|e].
    + destruct (processMessage_only_logs_invokes_calls_aux env hs m w)
        as (s' & new & E & H1 & H2).
      exists (status w), s', (new ++ [EHeartbeat]).
      unfold bind. rewrite E. unfold emit. cbn [status sess trace].
      rewrite <- app_assoc. split; [reflexivity|].
      rewrite !List.filter_app, H1, H2.
      repeat split; try reflexivity. discriminate.
    + exists (status w), (sess w), [ELog Error (Text e)].
      repeat split; try reflexivity. discriminate.
Qed.

Lemma processor_seq env hs ps qs w :
  processor env hs (ps ++ qs) w = processor env hs qs (snd (processor env hs ps w)).
Proof.
  revert w. induction ps as [|p ps IH]; intros w; [reflexivity|].
  change ((p :: ps) ++ qs) with (p :: (ps ++ qs)).
  rewrite !processor_step. apply IH.
Qed.

Lemma processor_counts env hs ps : forall w,
  exists st' s' new,
    processor env hs ps w = (Done tt, mkWorld st' s' (trace w ++ new)) /\
    List.filter isHeartbeat new =
      repeat EHeartbeat (length (List.filter (startsHeartbeat env) ps)) /\
    List.filter isClose new =
      repeat EClose (length (List.filter (closesAgent env) ps)).
Proof.
  induction ps as [|p ps IH]; intros w.
  - exists (status w), (sess w), []. rewrite app_nil_r.
    destruct w; repeat split.
  - rewrite processor_step.
    destruct (processPacket_summary env hs p w)
      as (st1 & s1 & new1 & -> & Hh & Hc & _).
    cbn [snd].
    destruct (IH (mkWorld st1 s1 (trace w ++ new1)))
      as (st2 & s2 & new2 & -> & Hh2 & Hc2).
    exists st2, s2, (new1 ++ new2). cbn [trace]. rewrite <- app_assoc.
    split; [reflexivity|].
    rewrite !List.filter_app, Hh, Hc, Hh2, Hc2. cbn [List.filter].
    destruct (startsHeartbeat env p), (closesAgent env p); repeat split.
Qed.

(** X12: the processor starts one heartbeat goroutine for every
    heartbeat packet and for every data packet whose message decodes (the
    data case falls through into the heartbeat case), and none for any
    other packet, in particular none for a data packet that fails to
    decode. *)
Theorem heartbeat_per_live_packet env hs ps w :
  exists st' s' new,
    processor env hs ps w = (Done tt, mkWorld st' s' (trace w ++ new)) /\
    List.filter isHeartbeat new =
      repeat EHeartbeat (length (List.filter (startsHeartbeat env) ps)).
Proof.
  destruct (processor_counts env hs ps w) as (st' & s' & new & E & H & _).
  exists st', s', new. auto.
Qed.


Lemma goroutine_packets env hs : forall ps k w,
  goroutine env hs k (map Some ps) w = processor env hs (firstn k ps) w.
Proof.
  induction ps as [|p ps IH]; intros k w.
  - destruct k; reflexivity.
  - destruct k as [|k]; [reflexivity|].
    cbn [map goroutine processEntry firstn processor]. unfold bind.
    destruct (processPacket env hs p w) as [[[]|v] w']; [apply IH | reflexivity].
Qed.

(** X14: the processing goroutine takes the entries of the channel in
    order.  As long as every entry carries a packet it returns normally
    from each of them (no handler panic, decoding failure or unknown type
    stops it) and, when the end signal is chosen after [k] entries, it
    has processed exactly the first [k] packets and none of the rest.  On
    the first entry whose packet is nil it panics, outside any recovery
    barrier, after having processed the packets before it. *)
Theorem goroutine_stops_on_end_or_nil_packet env hs ps k j rest w :
  (exists st' s' new,
      goroutine env hs k (map Some ps) w =
        (Done tt, mkWorld st' s' (trace w ++ new)) /\
      processor env hs (firstn k ps) w =
        (Done tt, mkWorld st' s' (trace w ++ new)) /\
      List.filter isHeartbeat new =
        repeat EHeartbeat
          (length (List.filter (startsHeartbeat env) (firstn k ps)))) /\
  goroutine env hs (length ps + S j) (map Some ps ++ None :: rest) w =
    (Panic "runtime error: invalid memory address or nil pointer dereference",
     snd (processor env hs ps w)).
Proof.
  split.
  - rewrite goroutine_packets.
    destruct (processor_counts env hs (firstn k ps) w)
      as (st' & s' & new & E & Hh & _).
    exists st', s', new. auto.
  - revert w. induction ps as [|p ps IH]; intros w.
    + reflexivity.
    + cbn [length Nat.add map app goroutine processEntry].
      rewrite processor_step. unfold bind.
      pose proof (processPacket_returns env hs p w) as Hret.
      destruct (processPacket env hs p w) as [res w']. cbn [fst snd] in *.
      rewrite Hret. apply IH.
Qed.

Lemma traffic_keeps_status env hs qs : forall w,
  forallb isTraffic qs = true ->
  status (snd (processor env hs qs w)) = status w.
Proof.
  induction qs as [|q qs IH]; intros w H; [reflexivity|].
  cbn [forallb] in H. apply andb_true_iff in H. destruct H as [Hq H].
  rewrite processor_step.
  destruct (processPacket_summary env hs q w) as (st1 & s1 & new1 & E & _ & _ & Hst & _).
  rewrite (IH _ H), E. cbn [snd status]. apply Hst. exact Hq.
Qed.

(** X15: a [HandshakeAck] puts the agent into [working] whatever came
    before it (no handshake is required, and a closed agent is revived),
    and data and heartbeat packets leave it there. *)
Theorem working_after_ack env hs ps ack qs w :
  p_Type ack = HandshakeAck ->
  forallb isTraffic qs = true ->
  status (snd (processor env hs (ps ++ ack :: qs) w)) = statusWorking.
Proof.
  intros Hack Hq. rewrite processor_seq, processor_step.
  rewrite (traffic_keeps_status env hs qs _ Hq).
  destruct (processPacket_summary env hs ack (snd (processor env hs ps w)))
    as (st1 & s1 & new1 & -> & _ & _ & _ & Hst).
  cbn [snd status]. apply Hst. exact Hack.
Qed.

Lemma working_after_ack_witness :
  status (snd (processor example.node example.registry
                 ([mkPacket Kick 0 []] ++ mkPacket HandshakeAck 0 [] ::
                  [example.dataPacket x01; mkPacket Heartbeat 0 []])
                 example.fresh)) = statusWorking.
Proof.
  apply (working_after_ack example.node example.registry
           [mkPacket Kick 0 []] (mkPacket HandshakeAck 0 [])
           [example.dataPacket x01; mkPacket Heartbeat 0 []] example.fresh);
    reflexivity.
Defined.

(* ===================================================================== *)
(** * Further properties of the reader *)
(* ===================================================================== *)

Import reader.

(** X16: as long as fewer than four bytes have arrived, the reader only
    accumulates: whatever the number and size of the reads, [Unpack] is
    not called, nothing is enqueued, the agent is not closed, and the
    accumulator holds the bytes in the order they came. *)
Theorem short_reads_accumulate fuel segs : forall r,
  (len (tmp r ++ concat segs) < HeadLength)%Z ->
  reads fuel r segs =
    Some (mkState (tmp r ++ concat segs) (packetChan r) (closes r)).
Proof.
  induction segs as [|seg segs IH]; intros r H.
  - cbn [reads concat]. rewrite app_nil_r. destruct r; reflexivity.
  - cbn [reads concat] in *. rewrite app_assoc in H.
    assert (Hseg : (len (tmp r ++ seg) <? HeadLength)%Z = true).
    { apply Z.ltb_lt. rewrite len_app in H. pose proof (len_nonneg (concat segs)). lia. }
    unfold onRead.
    replace (unpackLoop fuel (mkState (tmp r ++ seg) (packetChan r) (closes r)))
      with (Some (mkState (tmp r ++ seg) (packetChan r) (closes r))).
    + rewrite (IH (mkState (tmp r ++ seg) (packetChan r) (closes r)) H).
      cbn [tmp packetChan closes]. rewrite <- app_assoc. reflexivity.
    + destruct fuel; cbn [unpackLoop tmp]; rewrite Hseg; reflexivity.
Qed.

Lemma short_reads_accumulate_witness :
  reads 0 start [[x04]; []; [x00; x00]] = Some (mkState [x04; x00; x00] [] 0).
Proof.
  apply (short_reads_accumulate 0 [[x04]; []; [x00; x00]] start).
  reflexivity.
Defined.

(** ** Whole frames *)

Lemma Z_of_byte_of_Z x : Z_of_byte (byte_of_Z x) = (x mod 256)%Z.
Proof.
  unfold Z_of_byte, byte_of_Z.
  assert (Hx : (0 <= x mod 256 < 256)%Z) by (apply Z.mod_pos_bound; lia).
  destruct (Byte.of_N (Z.to_N (x mod 256))) as [b|] eqn:E.
  - apply Byte.to_of_N in E. rewrite E. apply Z2N.id. lia.
  - apply Byte.of_N_None_iff in E. lia.
Qed.

Lemma be24_recombine n :
  (0 <= n < 16777216)%Z ->
  Z.lor (Z.shiftl (Z.shiftr n 16 mod 256) 16)
    (Z.lor (Z.shiftl (Z.shiftr n 8 mod 256) 8) (n mod 256)) = n.
Proof.
  intros Hn. apply Z.bits_inj'. intros k Hk.
  assert (Hhigh : forall j, (24 <= j)%Z -> Z.testbit n j = false).
  { intros j Hj. rewrite <- (Z.mod_small n (2 ^ 24)) by (change (2 ^ 24)%Z with 16777216%Z; lia).
    apply Z.mod_pow2_bits_high. lia. }
  rewrite !Z.lor_spec. change 256%Z with (2 ^ 8)%Z.
  destruct (Z.lt_ge_cases k 8) as [H8|H8].
  { rewrite !Z.shiftl_spec_low by lia. rewrite Z.mod_pow2_bits_low by lia.
    reflexivity. }
  rewrite (Z.mod_pow2_bits_high n 8 k) by lia. rewrite orb_false_r.
  destruct (Z.lt_ge_cases k 16) as [H16|H16].
  { rewrite Z.shiftl_spec_low by lia. rewrite Z.shiftl_spec by lia.
    rewrite Z.mod_pow2_bits_low by lia. rewrite Z.shiftr_spec by lia.
    replace (k - 8 + 8)%Z with k by lia. reflexivity. }
  rewrite !Z.shiftl_spec by lia.
  rewrite (Z.mod_pow2_bits_high (Z.shiftr n 8) 8 (k - 8)) by lia.
  rewrite orb_false_r.
  destruct (Z.lt_ge_cases k 24) as [H24|H24].
  { rewrite Z.mod_pow2_bits_low by lia. rewrite Z.shiftr_spec by lia.
    replace (k - 16 + 16)%Z with k by lia. reflexivity. }
  rewrite Z.mod_pow2_bits_high by lia. symmetry. apply Hhigh. exact H24.
Qed.

Lemma byteToInt_intToBytes n :
  (0 <= n < 16777216)%Z ->
  byteToInt (byte_of_Z (Z.shiftr n 16)) (byte_of_Z (Z.shiftr n 8)) (byte_of_Z n) = n.
Proof.
  intros Hn. unfold byteToInt. rewrite !Z_of_byte_of_Z. apply be24_recombine. exact Hn.
Qed.

Lemma Unpack_frame p rest :
  framable p -> Unpack (frame p ++ rest) = (Some p, rest, None).
Proof.
  intros (Hty & Hlen & Hsize). unfold frame, intToBytes.
  cbn [app Unpack]. rewrite Hty.
  rewrite byteToInt_intToBytes by (pose proof (len_nonneg (p_Data p)); lia).
  assert (Hlt : (len (p_Data p ++ rest) <? len (p_Data p))%Z = false).
  { apply Z.ltb_ge. rewrite len_app. pose proof (len_nonneg rest). lia. }
  rewrite Hlt.
  replace (Z.to_nat (len (p_Data p))) with (length (p_Data p))
    by (unfold len; rewrite Nat2Z.id; reflexivity).
  rewrite firstn_app, skipn_app, Nat.sub_diag, firstn_all, skipn_all.
  cbn [firstn skipn app]. rewrite app_nil_r.
  destruct p as [t n d]. cbn [p_Type p_Length p_Data] in *. rewrite Hlen. reflexivity.
Qed.

Lemma Pack_frame p : framable p -> Pack p = (frame p, None).
Proof. intros (Hty & _). unfold Pack, frame. rewrite Hty. reflexivity. Qed.

Lemma len_frame p more : (HeadLength <= len (frame p ++ more))%Z.
Proof.
  unfold frame, intToBytes, HeadLength, len. cbn [app length].
  rewrite !length_app. lia.
Qed.

Lemma unpackLoop_frames ps : forall fuel more q c,
  Forall framable ps ->
  unpackLoop (length ps + fuel) (mkState (concat (map frame ps) ++ more) q c) =
  unpackLoop fuel (mkState more (q ++ map Some ps) c).
Proof.
  induction ps as [|p ps IH]; intros fuel more q c H.
  - cbn [length map concat app Nat.add]. rewrite app_nil_r. reflexivity.
  - inversion H as [|? ? Hp Hps]; subst.
    cbn [length map concat Nat.add unpackLoop tmp packetChan closes].
    rewrite <- app_assoc.
    pose proof (len_frame p (concat (map frame ps) ++ more)) as Hlen.
    apply Z.ltb_ge in Hlen. rewrite Hlen.
    rewrite (Unpack_frame p _ Hp).
    rewrite (IH fuel more (q ++ [Some p]) c Hps).
    rewrite <- app_assoc. reflexivity.
Qed.

(** X17: a read that delivers whole frames, as [Pack] writes them for
    packets of a known type whose body fits in 24 bits, followed by fewer
    than four bytes of the next frame, enqueues exactly those packets, in
    order, after as many iterations as there are frames; the agent is not
    closed and the trailing bytes stay in the accumulator. *)
Theorem whole_frames_are_decoded ps more r :
  Forall framable ps ->
  tmp r = [] ->
  (len more < HeadLength)%Z ->
  onRead (length ps) r (concat (map (fun p => fst (Pack p)) ps) ++ more) =
    Some (mkState more (packetChan r ++ map Some ps) (closes r)).
Proof.
  intros H Ht Hm. unfold onRead. rewrite Ht. cbn [app].
  assert (E : map (fun p => fst (Pack p)) ps = map frame ps).
  { clear - H. induction H as [|p ps Hp _ IH]; [reflexivity|].
    cbn [map]. rewrite IH, (Pack_frame p Hp). reflexivity. }
  rewrite E.
  replace (length ps) with (length ps + 0)%nat by lia.
  rewrite (unpackLoop_frames ps 0 more (packetChan r) (closes r) H).
  cbn [unpackLoop tmp]. apply Z.ltb_lt in Hm. rewrite Hm. reflexivity.
Qed.

Lemma whole_frames_are_decoded_witness :
  onRead 2 start
    (concat (map (fun p => fst (Pack p))
               [mkPacket Heartbeat 0 []; mkPacket Data 2 [x68; x69]]) ++ [x04; x00]) =
    Some (mkState [x04; x00]
            [Some (mkPacket Heartbeat 0 []); Some (mkPacket Data 2 [x68; x69])] 0).
Proof.
  apply (whole_frames_are_decoded
           [mkPacket Heartbeat 0 []; mkPacket Data 2 [x68; x69]] [x04; x00] start).
  - repeat constructor.
  - reflexivity.
  - reflexivity.
Defined.

(** X18: when a read ends where the loop leaves without an error (fewer
    than four bytes are left over), the bytes of the next read are
    decoded as if both had come in one read: the two reads and the single
    read of their concatenation end in the same state, with the same
    packets enqueued in the same order. *)
Theorem split_reads_agree fuel r r1 r2 s1 s2 :
  onRead fuel r s1 = Some r1 ->
  closes r1 = closes r ->
  onRead fuel r1 s2 = Some r2 ->
  reads fuel r [s1; s2] = Some r2 /\
  reads (fuel + fuel) r [s1 ++ s2] = Some r2.
Proof.
  intros H1 Hc H2. split.
  - cbn [reads]. rewrite H1, H2. reflexivity.
  - cbn [reads]. rewrite (reads_split fuel fuel r r1 r2 s1 s2 H1 Hc H2).
    reflexivity.
Qed.

Lemma split_reads_agree_witness :
  reads 1 start [[x03; x00; x00; x00; x04; x00]; [x00; x01; xaa]] =
    Some (mkState [] [Some (mkPacket Heartbeat 0 []); Some (mkPacket Data 1 [xaa])] 0) /\
  reads 2 start [[x03; x00; x00; x00; x04; x00] ++ [x00; x01; xaa]] =
    Some (mkState [] [Some (mkPacket Heartbeat 0 []); Some (mkPacket Data 1 [xaa])] 0).
Proof.
  apply (split_reads_agree 1 start
           (mkState [x04; x00] [Some (mkPacket Heartbeat 0 [])] 0)
           (mkState [] [Some (mkPacket Heartbeat 0 []); Some (mkPacket Data 1 [xaa])] 0)
           [x03; x00; x00; x00; x04; x00] [x00; x01; xaa]);
    reflexivity.
Defined.

Lemma goroutine_stops_on_end_or_nil_packet_witness :
  goroutine example.node example.registry 3
    [Some (mkPacket Heartbeat 0 []); None; Some (example.dataPacket x01)]
    example.fresh =
  (Panic "runtime error: invalid memory address or nil pointer dereference",
   mkWorld statusStart (mkSession 1 0 0) [EHeartbeat]).
Proof.
  exact (proj2 (goroutine_stops_on_end_or_nil_packet example.node example.registry
                  [mkPacket Heartbeat 0 []] 0 1 [Some (example.dataPacket x01)]
                  example.fresh)).
Defined.
